(** * codesocial: the document-to-codebook pipeline of [main.py]

    A shallow embedding of the core of [main.py]: the two regular-expression
    helpers [clean_json_string] and [extract_json], the row construction of
    the body of [main], and the loop of [main] over the Drive listing.  The
    collaborators the script only calls (Drive download, the Groq chat
    completion, [json.loads], the Excel writer) are kept abstract or recorded
    as events. *)

From Stdlib Require Import List NArith ZArith Lia Bool Ascii String Arith.
Import ListNotations.

Set Implicit Arguments.
Set Warnings "-register-all".

(** ** Python strings

    A [str] is a sequence of Unicode code points. *)

Definition char := N.
Definition str := list char.

(** ASCII literals, written as Rocq strings, read as code points. *)
Definition py (s : string) : str := map N_of_ascii (list_ascii_of_string s).
Arguments py s%_string.

Definition LF : char := 10%N.
Definition SPACE : char := 32%N.
Definition DQUOTE : char := 34%N.
Definition BACKSLASH : char := 92%N.
Definition LBRACE : char := 123%N.
Definition RBRACE : char := 125%N.

Fixpoint str_eqb (a b : str) : bool :=
  match a, b with
  | [], [] => true
  | x :: a', y :: b' => N.eqb x y && str_eqb a' b'
  | _, _ => false
  end.

(** [s[:n]] for a non-negative [n]. *)
Definition slice_to (n : nat) (s : str) : str := firstn n s.

(** [str.isspace] on one code point: the characters [str.strip()] removes. *)
Definition isspace (c : char) : bool :=
  ((9 <=? c) && (c <=? 13) || (28 <=? c) && (c <=? 32)
   || (c =? 133) || (c =? 160) || (c =? 5760)
   || (8192 <=? c) && (c <=? 8202)
   || (c =? 8232) || (c =? 8233) || (c =? 8239) || (c =? 8287)
   || (c =? 12288))%N.

Fixpoint lstrip (s : str) : str :=
  match s with
  | c :: rest => if isspace c then lstrip rest else s
  | [] => []
  end.

Definition rstrip (s : str) : str := rev (lstrip (rev s)).

Definition strip (s : str) : str := rstrip (lstrip s).

(** Truth value of a string: [not s] holds exactly for the empty string. *)
Definition py_not (s : str) : bool :=
  match s with
  | [] => true
  | _ :: _ => false
  end.

(** ** Exceptions *)

Inductive exn : Type :=
| ValueError (msg : str)
| JSONDecodeError
| AttributeError
| TypeError
| IndexError (msg : str)
| OSError (msg : str).

Inductive result (A : Type) : Type :=
| Ok (a : A)
| Raise (e : exn).
Arguments Ok {A} a.
Arguments Raise {A} e.

Definition bind {A B} (r : result A) (k : A -> result B) : result B :=
  match r with
  | Ok a => k a
  | Raise e => Raise e
  end.

Notation "x <- r ;; k" := (bind r (fun x => k))
  (at level 61, r at next level, right associativity).

(** ** [clean_json_string]

    [re.sub(r'(?<!\\)\n', ' ', json_str)]: the scan visits every position of
    the subject; [prev] is the character just before the position in the
    subject ([None] at its start), which is what the look-behind reads. *)

Definition preceded_by_backslash (prev : option char) : bool :=
  match prev with
  | Some p => N.eqb p BACKSLASH
  | None => false
  end.

Fixpoint sub_newlines (prev : option char) (s : str) : str :=
  match s with
  | [] => []
  | c :: rest =>
      (if N.eqb c LF && negb (preceded_by_backslash prev) then SPACE else c)
        :: sub_newlines (Some c) rest
  end.

Definition clean_json_string (json_str : str) : str :=
  sub_newlines None json_str.

(** ** [extract_json]

    [re.search(r"\{.*\}", text, re.DOTALL)].  [greedy_rbrace s] is the match
    of [.*\}] at the start of [s]: with DOTALL the star first takes all of
    [s] and gives characters back until a closing brace follows, so the match
    is the longest prefix of [s] that ends in a brace.  [re_search] tries the
    start positions from left to right. *)

Fixpoint greedy_rbrace (s : str) : option str :=
  match s with
  | [] => None
  | c :: rest =>
      match greedy_rbrace rest with
      | Some m => Some (c :: m)
      | None => if N.eqb c RBRACE then Some [c] else None
      end
  end.

Fixpoint re_search (text : str) : option str :=
  match text with
  | [] => None
  | c :: rest =>
      if N.eqb c LBRACE then
        match greedy_rbrace rest with
        | Some m => Some (c :: m)
        | None => re_search rest
        end
      else re_search rest
  end.

(** "Aucun JSON détecté dans la réponse." *)
Definition no_json_message : str :=
  py "Aucun JSON d" ++ [233%N] ++ py "tect" ++ [233%N] ++ py " dans la r"
    ++ [233%N] ++ py "ponse.".

Definition extract_json (text : str) : result str :=
  match re_search text with
  | Some m => Ok m
  | None => Raise (ValueError no_json_message)
  end.

(** ** Parsed JSON and Python dictionaries

    What [json.loads] returns: [None], [bool], [int], [float], [str], [list]
    and [dict].  A float is kept as the text of its literal.  A [dict] keeps
    its keys in insertion order and holds each key once; the codebook is
    such a [dict], and the workbook gets its sheets in that order. *)

Inductive json : Type :=
| JNull
| JBool (b : bool)
| JInt (n : Z)
| JFloat (literal : str)
| JStr (s : str)
| JArr (items : list json)
| JObj (members : list (str * json)).

Section Dict.
Variable V : Type.

Definition dict := list (str * V).

Fixpoint dict_get (d : dict) (k : str) : option V :=
  match d with
  | [] => None
  | (k', v) :: d' => if str_eqb k' k then Some v else dict_get d' k
  end.

(** [d[k] = v]: an existing key keeps its place and takes the new value, a
    new key goes to the end. *)
Fixpoint dict_set (d : dict) (k : str) (v : V) : dict :=
  match d with
  | [] => [(k, v)]
  | (k', v') :: d' =>
      if str_eqb k' k then (k', v) :: d' else (k', v') :: dict_set d' k v
  end.

Definition dict_keys (d : dict) : list str := map fst d.

(** [d.get(k, default)] *)
Definition dict_get_default (d : dict) (k : str) (default : V) : V :=
  match dict_get d k with
  | Some v => v
  | None => default
  end.
End Dict.

(** [v.get(key, default)] on a parsed value: only a [dict] has the method. *)
Definition py_get (v : json) (key : str) (default : json) : result json :=
  match v with
  | JObj members => Ok (dict_get_default members key default)
  | _ => Raise AttributeError
  end.

(** [iter(v)]: a list gives its items, a string its characters, a dict its
    keys; the other values are not iterable. *)
Definition py_iter (v : json) : result (list json) :=
  match v with
  | JArr items => Ok items
  | JStr s => Ok (map (fun c => JStr [c]) s)
  | JObj members => Ok (map (fun kv => JStr (fst kv)) members)
  | _ => Raise TypeError
  end.

(** [zip(xs, ys)] stops with the shorter of the two. *)
Fixpoint zip (A B : Type) (xs : list A) (ys : list B) : list (A * B) :=
  match xs, ys with
  | x :: xs', y :: ys' => (x, y) :: zip xs' ys'
  | _, _ => []
  end.

(** ** Row construction (the body of [main], "Construire un DataFrame") *)

Record row : Type := mk_row { Theme : json; Coding : json; Verbatim : json }.

Definition DataFrame := list row.

(** The inner [for coding, verbatim in zip(codages, verbatims)] with its
    [df_rows.append]. *)
Fixpoint append_pairs (th : json) (pairs : list (json * json))
    (df_rows : DataFrame) : DataFrame :=
  match pairs with
  | [] => df_rows
  | (coding, verbatim) :: rest =>
      append_pairs th rest (df_rows ++ [mk_row th coding verbatim])
  end.

(** One turn of [for theme in data.get('themes', [])]. *)
Definition theme_rows (theme : json) (df_rows : DataFrame) : result DataFrame :=
  th <- py_get theme (py "theme") (JStr []) ;;
  codages <- py_get theme (py "codages") (JArr []) ;;
  verbatims <- py_get theme (py "verbatims") (JArr []) ;;
  cs <- py_iter codages ;;
  vs <- py_iter verbatims ;;
  Ok (append_pairs th (zip cs vs) df_rows).

Fixpoint themes_loop (themes : list json) (df_rows : DataFrame)
    : result DataFrame :=
  match themes with
  | [] => Ok df_rows
  | theme :: rest =>
      df_rows' <- theme_rows theme df_rows ;;
      themes_loop rest df_rows'
  end.

(** [df_rows = []] followed by the loop over the themes; the result is what
    [pd.DataFrame(df_rows)] receives. *)
Definition build_rows (data : json) : result DataFrame :=
  themes <- py_get data (py "themes") (JArr []) ;;
  ts <- py_iter themes ;;
  themes_loop ts [].

(** ** The loop of [main]

    The Drive download and the chat completion act on the outside world,
    which is threaded through them; [json.loads] is a function of its
    argument; the Excel writer, which comes last, either ends normally or
    raises. *)

Record item : Type := mk_item { id : str; name : str }.

Definition Codebook := dict DataFrame.

Definition output_file : str := py "codebook.xlsx".

(** What a run shows to the outside, in order.  [ExcelWrite file sheets]
    is the script entering its [with pd.ExcelWriter(file)] block with the
    codebook [sheets]: the call to the writer, whatever the writer then
    does. *)
Inductive event : Type :=
| PrintNoFiles
| PrintReading (display_name : str)
| DriveRead (file_id : str)
| PrintEmpty
| GroqCall (text : str)
| PrintParseError (e : exn)
| PrintRaw (analysis : str)
| ExcelWrite (file : str) (sheets : Codebook)
| PrintDone (file : str).

(** How a run ends: the early [return] on an empty listing, the [return] of
    the [except] branch, an exception nobody catches (of the row
    construction or of the writer), or the end of [main] after the [with]
    block of the writer was left without an exception. *)
Inductive outcome : Type :=
| NoDocuments
| ParseAbort (analysis : str)
| Uncaught (e : exn)
| Written (codebook : Codebook).

(** The events of a turn that reaches the service, and of a turn on a
    document without text. *)
Definition seen (it : item) (content : str) : list event :=
  [PrintReading (name it); DriveRead (id it); GroqCall content].

Definition skipped (it : item) : list event :=
  [PrintReading (name it); DriveRead (id it); PrintEmpty].

Section Pipeline.
Variable World : Type.
Variable read_docx_file_content : str -> World -> str * World.
Variable analyze_document : str -> World -> str * World.
Variable json_loads : str -> result json.

(** The [with pd.ExcelWriter(output_file, engine='openpyxl')] block, which
    hands every sheet of the codebook to [to_excel]: pandas and openpyxl
    decide whether it ends normally ([None]) or on an exception, which
    nothing in [main] catches. *)
Variable excel_writer : str -> Codebook -> World -> option exn.

(** The [try] block. *)
Definition parse_response (analysis : str) : result json :=
  json_text <- extract_json analysis ;;
  let json_text := clean_json_string json_text in
  json_loads json_text.

(** How one turn of [for item in items] leaves the loop body. *)
Inductive turn : Type :=
| Next (codebook : Codebook) (w : World)
| Return_ (analysis : str) (w : World)
| Propagate (e : exn) (w : World).

Definition loop_body (it : item) (codebook : Codebook) (w : World)
    : list event * turn :=
  let (content, w1) := read_docx_file_content (id it) w in
  if py_not (strip content) then (skipped it, Next codebook w1)
  else
    let (analysis, w2) := analyze_document content w1 in
    match parse_response analysis with
    | Raise e =>
        (seen it content ++ [PrintParseError e; PrintRaw analysis],
         Return_ analysis w2)
    | Ok data =>
        match build_rows data with
        | Raise e => (seen it content, Propagate e w2)
        | Ok df_rows =>
            (seen it content,
             Next (dict_set codebook (slice_to 31 (name it)) df_rows) w2)
        end
    end.

Fixpoint for_items (items : list item) (codebook : Codebook) (w : World)
    : list event * turn :=
  match items with
  | [] => ([], Next codebook w)
  | it :: rest =>
      match loop_body it codebook w with
      | (evs, Next codebook' w') =>
          let (evs', t) := for_items rest codebook' w' in (evs ++ evs', t)
      | stopped => stopped
      end
  end.

Definition main (items : list item) (w : World) : list event * outcome :=
  match items with
  | [] => ([PrintNoFiles], NoDocuments)
  | _ :: _ =>
      match for_items items [] w with
      | (evs, Next codebook w') =>
          match excel_writer output_file codebook w' with
          | None =>
              (evs ++ [ExcelWrite output_file codebook; PrintDone output_file],
               Written codebook)
          | Some e => (evs ++ [ExcelWrite output_file codebook], Uncaught e)
          end
      | (evs, Return_ analysis _) => (evs, ParseAbort analysis)
      | (evs, Propagate e _) => (evs, Uncaught e)
      end
  end.
End Pipeline.

(** ** A decoder for [json.loads]

    The pipeline above takes [json.loads] as given.  [Json.loads] is a model
    of the decoder of the Python standard library in its default (strict)
    mode, used where a claim is about one concrete response: the scanner
    dispatches on the next character; objects, arrays, strings, numbers and
    the constants follow the decoder's grammar; a repeated key keeps its
    place and takes the last value; every failure is a [JSONDecodeError].
    The recursion is on fuel.  Of two calls in a row at least one consumes a
    character, so [2 * length s + 2] is never used up on a text that
    decodes, and a text that does not decode fails either way.  The
    interpreter's own limits (recursion depth, digits of an integer) are
    left out. *)

Module Json.

Definition is_ws (c : char) : bool :=
  ((c =? 32) || (c =? 9) || (c =? 10) || (c =? 13))%N.

Fixpoint skip_ws (s : str) : str :=
  match s with
  | c :: rest => if is_ws c then skip_ws rest else s
  | [] => []
  end.

Definition is_digit (c : char) : bool := ((48 <=? c) && (c <=? 57))%N.

Definition hex_digit (c : char) : option N :=
  if is_digit c then Some (c - 48)%N
  else if ((97 <=? c) && (c <=? 102))%N then Some (c - 87)%N
  else if ((65 <=? c) && (c <=? 70))%N then Some (c - 55)%N
  else None.

Definition hex4 (s : str) : option (N * str) :=
  match s with
  | a :: b :: c :: d :: rest =>
      match hex_digit a, hex_digit b, hex_digit c, hex_digit d with
      | Some x, Some y, Some z, Some t =>
          Some ((((x * 16 + y) * 16 + z) * 16 + t)%N, rest)
      | _, _, _, _ => None
      end
  | _ => None
  end.

(** The character after a backslash, other than [u]. *)
Definition simple_escape (e : char) : option char :=
  if (e =? 34)%N then Some 34%N
  else if (e =? 92)%N then Some 92%N
  else if (e =? 47)%N then Some 47%N
  else if (e =? 98)%N then Some 8%N
  else if (e =? 102)%N then Some 12%N
  else if (e =? 110)%N then Some 10%N
  else if (e =? 114)%N then Some 13%N
  else if (e =? 116)%N then Some 9%N
  else None.

Definition is_high_surrogate (u : N) : bool := ((55296 <=? u) && (u <=? 56319))%N.
Definition is_low_surrogate (u : N) : bool := ((56320 <=? u) && (u <=? 57343))%N.
Definition join_surrogates (hi lo : N) : N :=
  (65536 + (hi - 55296) * 1024 + (lo - 56320))%N.

(** The body of a string literal, after its opening quote: the decoded
    text and the input after the closing quote. *)
Fixpoint scanstring (fuel : nat) (s acc : str) : option (str * str) :=
  match fuel, s with
  | 0, _ => None
  | _, [] => None
  | S fuel', c :: rest =>
      if N.eqb c DQUOTE then Some (rev acc, rest)
      else if N.eqb c BACKSLASH then
        match rest with
        | [] => None
        | e :: rest1 =>
            if (e =? 117)%N then
              match hex4 rest1 with
              | None => None
              | Some (u, rest2) =>
                  match rest2 with
                  | b :: v :: rest3 =>
                      if is_high_surrogate u && (b =? 92)%N && (v =? 117)%N then
                        match hex4 rest3 with
                        | None => None
                        | Some (u2, rest4) =>
                            if is_low_surrogate u2
                            then scanstring fuel' rest4 (join_surrogates u u2 :: acc)
                            else scanstring fuel' rest2 (u :: acc)
                        end
                      else scanstring fuel' rest2 (u :: acc)
                  | _ => scanstring fuel' rest2 (u :: acc)
                  end
              end
            else
              match simple_escape e with
              | Some x => scanstring fuel' rest1 (x :: acc)
              | None => None
              end
        end
      else if (c <? 32)%N then None
      else scanstring fuel' rest (c :: acc)
  end.

Fixpoint span_digits (s : str) : str * str :=
  match s with
  | c :: rest =>
      if is_digit c then let (ds, r) := span_digits rest in (c :: ds, r)
      else ([], s)
  | [] => ([], [])
  end.

Definition digits_value (ds : str) : Z :=
  fold_left (fun a d => (a * 10 + (Z.of_N d - 48))%Z) ds 0%Z.

Definition match_number (s : str) : option (json * str) :=
  let (sign, s1) :=
    match s with
    | c :: r => if (c =? 45)%N then ([c], r) else ([], s)
    | [] => ([], s)
    end in
  let int_part :=
    match s1 with
    | c :: r =>
        if ((49 <=? c) && (c <=? 57))%N
        then let (ds, r') := span_digits r in Some (c :: ds, r')
        else if (c =? 48)%N then Some ([c], r)
        else None
    | [] => None
    end in
  match int_part with
  | None => None
  | Some (ds, r1) =>
      let (frac, r2) :=
        match r1 with
        | dot :: d :: r' =>
            if (dot =? 46)%N && is_digit d
            then let (fs, r'') := span_digits r' in (dot :: d :: fs, r'')
            else ([], r1)
        | _ => ([], r1)
        end in
      let (exp, r3) :=
        match r2 with
        | e :: r' =>
            if ((e =? 101) || (e =? 69))%N then
              let (sg, q) :=
                match r' with
                | g :: q' => if ((g =? 45) || (g =? 43))%N then ([g], q') else ([], r')
                | [] => ([], r')
                end in
              let (es, q') := span_digits q in
              match es with
              | [] => ([], r2)
              | _ :: _ => (e :: sg ++ es, q')
              end
            else ([], r2)
        | [] => ([], r2)
        end in
      match frac, exp with
      | [], [] =>
          let v := digits_value ds in
          Some (JInt (match sign with [] => v | _ :: _ => - v end)%Z, r3)
      | _, _ => Some (JFloat (sign ++ ds ++ frac ++ exp), r3)
      end
  end.

(** [starts_with p s]: the input after the prefix [p], when [s] has it. *)
Fixpoint starts_with (p s : str) : option str :=
  match p, s with
  | [], _ => Some s
  | x :: p', y :: s' => if N.eqb x y then starts_with p' s' else None
  | _ :: _, [] => None
  end.

Definition constant (s : str) : option (json * str) :=
  match starts_with (py "null") s with
  | Some r => Some (JNull, r)
  | None =>
  match starts_with (py "true") s with
  | Some r => Some (JBool true, r)
  | None =>
  match starts_with (py "false") s with
  | Some r => Some (JBool false, r)
  | None =>
  match starts_with (py "NaN") s with
  | Some r => Some (JFloat (py "NaN"), r)
  | None =>
  match starts_with (py "Infinity") s with
  | Some r => Some (JFloat (py "Infinity"), r)
  | None =>
  match starts_with (py "-Infinity") s with
  | Some r => Some (JFloat (py "-Infinity"), r)
  | None => None
  end end end end end end.

(** [scan_once] reads one value; [array_items] and [object_members] read
    what follows an opening bracket or brace whose first item is known to
    be there. *)
Fixpoint scan_once (fuel : nat) (s : str) : option (json * str) :=
  match fuel, s with
  | 0, _ => None
  | _, [] => None
  | S fuel', c :: rest =>
      if N.eqb c DQUOTE then
        match scanstring (S (List.length rest)) rest [] with
        | Some (x, r) => Some (JStr x, r)
        | None => None
        end
      else if N.eqb c LBRACE then
        match skip_ws rest with
        | c' :: r' =>
            if N.eqb c' RBRACE then Some (JObj [], r')
            else object_members fuel' (c' :: r') []
        | [] => None
        end
      else if (c =? 91)%N then
        match skip_ws rest with
        | c' :: r' =>
            if (c' =? 93)%N then Some (JArr [], r')
            else array_items fuel' (c' :: r') []
        | [] => None
        end
      else
        match constant s with
        | Some found => Some found
        | None => match_number s
        end
  end
with array_items (fuel : nat) (s : str) (acc : list json)
    : option (json * str) :=
  match fuel with
  | 0 => None
  | S fuel' =>
      match scan_once fuel' s with
      | None => None
      | Some (v, r) =>
          match skip_ws r with
          | c :: r' =>
              if (c =? 93)%N then Some (JArr (rev (v :: acc)), r')
              else if (c =? 44)%N then array_items fuel' (skip_ws r') (v :: acc)
              else None
          | [] => None
          end
      end
  end
with object_members (fuel : nat) (s : str) (acc : dict json)
    : option (json * str) :=
  match fuel, s with
  | 0, _ => None
  | _, [] => None
  | S fuel', q :: r0 =>
      if negb (N.eqb q DQUOTE) then None
      else
        match scanstring (S (List.length r0)) r0 [] with
        | None => None
        | Some (key, r1) =>
            match skip_ws r1 with
            | colon :: r2 =>
                if negb (colon =? 58)%N then None
                else
                  match scan_once fuel' (skip_ws r2) with
                  | None => None
                  | Some (v, r3) =>
                      let acc' := dict_set acc key v in
                      match skip_ws r3 with
                      | c :: r4 =>
                          if N.eqb c RBRACE then Some (JObj acc', r4)
                          else if (c =? 44)%N
                          then object_members fuel' (skip_ws r4) acc'
                          else None
                      | [] => None
                      end
                  end
            | [] => None
            end
        end
  end.

Definition loads (s : str) : result json :=
  match s with
  | 65279%N :: _ => Raise JSONDecodeError
  | _ =>
      match scan_once (2 * List.length s + 2) (skip_ws s) with
      | Some (v, rest) =>
          match skip_ws rest with
          | [] => Ok v
          | _ :: _ => Raise JSONDecodeError
          end
      | None => Raise JSONDecodeError
      end
  end.

End Json.

(** * Vocabulary of the statements *)

Definition str_eq_dec (a b : str) : {a = b} + {a <> b} :=
  list_eq_dec N.eq_dec a b.

(** The character before position [i] of [s] ([prev] before its start). *)
Definition before (prev : option char) (s : str) (i : nat) : option char :=
  match i with
  | 0 => prev
  | S j => nth_error s j
  end.

(** Position [i] of [s] comes right after a backslash. *)
Definition escaped_at (s : str) (i : nat) : Prop :=
  exists j, i = S j /\ nth_error s j = Some BACKSLASH.

Definition unescaped_newline (s : str) (i : nat) : Prop :=
  nth_error s i = Some LF /\ ~ escaped_at s i.


(** A text between double quotes. *)
Definition quoted (s : str) : str := DQUOTE :: s ++ [DQUOTE].

(** Brace [i] opens and brace [j] closes, in this order. *)
Definition brace_pair (text : str) (i j : nat) : Prop :=
  i < j /\ nth_error text i = Some LBRACE /\ nth_error text j = Some RBRACE.

(** The payload the system prompt of [analyze_document] asks for: themes
    with a name, a list of codings and a list of verbatims, as
    [json.loads] returns them. *)
Record ThemeBlock : Type :=
  mk_block { theme : str; codings : list str; verbatims : list str }.

Definition CodingPayload := list ThemeBlock.

Definition block_json (b : ThemeBlock) : json :=
  JObj [(py "theme", JStr (theme b));
        (py "codages", JArr (map JStr (codings b)));
        (py "verbatims", JArr (map JStr (verbatims b)))].

Definition payload_json (p : CodingPayload) : json :=
  JObj [(py "themes", JArr (map block_json p))].

(** [rows] pairs the codings and the verbatims of [b] index by index, up to
    the end of the shorter list. *)
Definition pairs_block (b : ThemeBlock) (rows : DataFrame) : Prop :=
  List.length rows
  = Nat.min (List.length (codings b)) (List.length (verbatims b))
  /\ forall i c v,
       nth_error (codings b) i = Some c ->
       nth_error (verbatims b) i = Some v ->
       nth_error rows i = Some (mk_row (JStr (theme b)) (JStr c) (JStr v)).

(** The rows one theme adds: one per pair. *)
Definition rows_of (th : json) (pairs : list (json * json)) : DataFrame :=
  map (fun cv => mk_row th (fst cv) (snd cv)) pairs.

(** The rows of one block of the payload. *)
Definition block_table (b : ThemeBlock) : DataFrame :=
  rows_of (JStr (theme b))
          (zip (map JStr (codings b)) (map JStr (verbatims b))).

(** The value under [key] is missing, or something [iter] accepts. *)
Definition absent_or_iterable (members : dict json) (key : str) : Prop :=
  match dict_get members key with
  | None => True
  | Some v => exists l, py_iter v = Ok l
  end.

(** The sheet name a document gets. *)
Definition sheet (it : item) : str := slice_to 31 (name it).

Section Turns.
Variable World : Type.
Variable read_docx_file_content : str -> World -> str * World.
Variable analyze_document : str -> World -> str * World.
Variable json_loads : str -> result json.

(** In world [w] the text of [it] is blank (empty or white space only);
    reading it leaves world [w']. *)
Definition blank (it : item) (w w' : World) : Prop :=
  exists content,
    read_docx_file_content (id it) w = (content, w')
    /\ forallb isspace content = true.

(** In world [w] the text of [it] is [content], which is not blank, and
    the service answers it with [analysis], leaving world [w']. *)
Definition answered (it : item) (w : World) (content analysis : str)
    (w' : World) : Prop :=
  exists w1,
    read_docx_file_content (id it) w = (content, w1)
    /\ forallb isspace content = false
    /\ analyze_document content w1 = (analysis, w').

(** ... and the answer parses and gives the rows [table]. *)
Definition tabulated (it : item) (w : World) (table : DataFrame)
    (w' : World) : Prop :=
  exists content analysis data,
    answered it w content analysis w'
    /\ parse_response json_loads analysis = Ok data
    /\ build_rows data = Ok table.
End Turns.

(** Events a turn can show: never a workbook, and a call to the service
    only with a text that is not blank. *)
Definition turn_event (ev : event) : Prop :=
  match ev with
  | ExcelWrite _ _ => False
  | PrintDone _ => False
  | GroqCall text => forallb isspace text = false
  | _ => True
  end.

(** The JSON text of a payload with one theme, one coding and one
    verbatim. *)
Definition coding_json (th c v : str) : str :=
  py "{" ++ quoted (py "themes") ++ py ":[{"
    ++ quoted (py "theme") ++ py ":" ++ quoted th ++ py ","
    ++ quoted (py "codages") ++ py ":[" ++ quoted c ++ py "],"
    ++ quoted (py "verbatims") ++ py ":[" ++ quoted v ++ py "]}]}".

(** The answer of the end-to-end example: a line of reasoning, the JSON
    object on a line of its own, a closing line. *)
Definition example_json : str :=
  coding_json (py "T") (py "A") (py "quote one").

Definition example_response : str :=
  py "Reasoning..." ++ [LF] ++ example_json ++ [LF] ++ py "Done.".

Definition example_table : DataFrame :=
  [mk_row (JStr (py "T")) (JStr (py "A")) (JStr (py "quote one"))].

(** An answer whose one theme block has no codings and a number where the
    verbatims should be. *)
Definition number_for_verbatims : str :=
  py "{" ++ quoted (py "themes") ++ py ":[{" ++ quoted (py "verbatims")
    ++ py ":5}]}".

(** An answer whose object has a comma before its closing brace. *)
Definition trailing_comma : str :=
  py "Voici: {" ++ quoted (py "themes") ++ py ":[],}".

(** A second well-formed answer. *)
Definition other_response : str :=
  py "Analyse. " ++ coding_json (py "U") (py "B") (py "quote two").

Definition other_table : DataFrame :=
  [mk_row (JStr (py "U")) (JStr (py "B")) (JStr (py "quote two"))].

(** ** A small outside world

    The world is the number of calls the service has had; it answers call
    [n] with entry [n] of a script.  The folder holds one blank document
    and gives every other file a line of text. *)

Definition demo_read (file_id : str) (w : nat) : str * nat :=
  (if str_eqb file_id (py "blank") then [SPACE; LF; SPACE]
   else py "Entretien " ++ file_id, w).

Definition demo_analyze (script : list str) (text : str) (w : nat)
    : str * nat :=
  (nth w script [], S w).

(** A writer for the examples: it refuses a workbook without sheets and
    takes every other. *)
Definition demo_writer (file : str) (sheets : Codebook) (w : nat)
    : option exn :=
  match sheets with
  | [] => Some (IndexError (py "At least one sheet must be visible"))
  | _ :: _ => None
  end.

Definition long_name : str :=
  py "Interview 1 - a very long title that exceeds thirty one chars".

Definition doc1 : item := mk_item (py "id1") long_name.
Definition doc2 : item := mk_item (py "id2") long_name.
Definition doc3 : item := mk_item (py "id3") (py "Interview 3").
Definition blank_doc : item := mk_item (py "blank") (py "Notes").

(** * Further vocabulary *)

(** The character a scan has just passed: the last one of [s], or [prev]
    when [s] is empty. *)
Definition last_char (prev : option char) (s : str) : option char :=
  match rev s with
  | [] => prev
  | c :: _ => Some c
  end.

(** What the body of [main] reads from a parsed object and from a theme
    block, with the defaults of its [get] calls. *)
Definition themes_of (m : dict json) : json :=
  dict_get_default m (py "themes") (JArr []).
Definition theme_of (m : dict json) : json :=
  dict_get_default m (py "theme") (JStr []).
Definition codages_of (m : dict json) : json :=
  dict_get_default m (py "codages") (JArr []).
Definition verbatims_of (m : dict json) : json :=
  dict_get_default m (py "verbatims") (JArr []).

(** The items [iter] yields, none for a value that is not iterable. *)
Definition items_of (v : json) : list json :=
  match py_iter v with
  | Ok l => l
  | Raise _ => []
  end.

Definition iterable (v : json) : Prop := exists l, py_iter v = Ok l.

(** A theme the loop gets through: a [dict] whose codages and verbatims can
    both be iterated. *)
Definition block_ok (t : json) : Prop :=
  match t with
  | JObj m => iterable (codages_of m) /\ iterable (verbatims_of m)
  | _ => False
  end.

(** The exception a theme that is not [block_ok] raises. *)
Definition block_error (t : json) : exn :=
  match t with
  | JObj _ => TypeError
  | _ => AttributeError
  end.

(** The number of rows a theme adds. *)
Definition pair_count (t : json) : nat :=
  match t with
  | JObj m => Nat.min (List.length (items_of (codages_of m)))
                      (List.length (items_of (verbatims_of m)))
  | _ => 0
  end.

(** Row [r] pairs coding [i] and verbatim [i] of the theme block [b]. *)
Definition row_from (b : dict json) (i : nat) (r : row) : Prop :=
  Theme r = theme_of b
  /\ nth_error (items_of (codages_of b)) i = Some (Coding r)
  /\ nth_error (items_of (verbatims_of b)) i = Some (Verbatim r).

(** What a trace shows of each kind: the files downloaded, the texts sent
    to the service, the calls to the writer. *)
Definition drive_reads (evs : list event) : list str :=
  flat_map (fun ev => match ev with DriveRead i => [i] | _ => [] end) evs.

Definition groq_calls (evs : list event) : list str :=
  flat_map (fun ev => match ev with GroqCall t => [t] | _ => [] end) evs.

Definition excel_writes (evs : list event) : list (str * Codebook) :=
  flat_map (fun ev => match ev with
                      | ExcelWrite f sheets => [(f, sheets)]
                      | _ => []
                      end) evs.

(** The order in which names first occur: [add_key] puts a new name last
    and leaves a known one where it is. *)
Definition add_key (ks : list str) (k : str) : list str :=
  if existsb (str_eqb k) ks then ks else ks ++ [k].

Definition first_occurrences (l : list str) : list str :=
  fold_left add_key l [].

(** ** [read_docx_file_content]

    The download loop and the parsing of the file by [Document] are the
    Drive client's and python-docx's; [paragraphs] stands for both: the
    texts of the paragraphs of a file.  The function itself joins them. *)

(** [sep.join(parts)] *)
Fixpoint join (sep : str) (parts : list str) : str :=
  match parts with
  | [] => []
  | p :: rest =>
      match rest with
      | [] => p
      | _ :: _ => p ++ sep ++ join sep rest
      end
  end.

Section Docx.
Variable World : Type.
Variable paragraphs : str -> World -> list str * World.

Definition read_docx_file_content (file_id : str) (w : World) : str * World :=
  let (full_text, w') := paragraphs file_id w in
  (join [LF] full_text, w').
End Docx.

(** ** The start of the script

    [environ] is the environment after [load_dotenv()].  The module reads
    two variables and raises when one has no value; [main] then builds the
    Drive service, reads the folder id, lists the folder and enters the
    loop. *)

Definition GROQ_API_KEY : str := py "GROQ_API_KEY".
Definition GOOGLE_APPLICATION_CREDENTIALS : str :=
  py "GOOGLE_APPLICATION_CREDENTIALS".
Definition GDRIVE_FOLDER_ID : str := py "GDRIVE_FOLDER_ID".

(** [os.getenv(key)] *)
Definition getenv (environ : dict str) (key : str) : option str :=
  dict_get environ key.

(** [not v] for what [os.getenv] returns: [None] and the empty string. *)
Definition unset (v : option str) : bool :=
  match v with
  | None => true
  | Some s => py_not s
  end.

Definition missing_api_key : str :=
  py "La cl" ++ [233%N] ++ py " API GROQ_API_KEY n'a pas " ++ [233%N]
    ++ py "t" ++ [233%N] ++ py " trouv" ++ [233%N]
    ++ py "e dans le fichier .env".

Definition missing_credentials : str :=
  py "Le chemin vers les credentials Google n'est pas d" ++ [233%N]
    ++ py "fini dans GOOGLE_APPLICATION_CREDENTIALS".

Definition missing_folder : str :=
  py "L'identifiant du dossier Google Drive est manquant (GDRIVE_FOLDER_ID)".

(** The string a variable holds once it is known to be set. *)
Definition text (v : option str) : str :=
  match v with
  | Some s => s
  | None => []
  end.

(** The module level: the two values, or the [ValueError]. *)
Definition module_init (environ : dict str) : result (str * str) :=
  let api_key := getenv environ GROQ_API_KEY in
  let gdrive_credentials_file := getenv environ GOOGLE_APPLICATION_CREDENTIALS in
  if unset api_key then Raise (ValueError missing_api_key)
  else if unset gdrive_credentials_file
       then Raise (ValueError missing_credentials)
       else Ok (text api_key, text gdrive_credentials_file).

(** The query of [main]: an f-string around the folder id. *)
Definition query_for (folder_id : str) : str :=
  py "'" ++ folder_id
    ++ py "' in parents and mimeType='application/vnd.openxmlformats-officedocument.wordprocessingml.document' and trashed = false".

(** What the script does, in order: the Groq client, the Drive service, the
    listing, then the events of the loop. *)
Inductive step : Type :=
| GroqClient (api_key : str)
| DriveService (credentials_file : str)
| DriveList (query : str)
| Shown (ev : event).

(** How the script ends: on an exception of its own before the loop, or as
    [main] ends. *)
Inductive ending : Type :=
| Failed (e : exn)
| Ended (o : outcome).

Section Script.
Variable World : Type.
Variable list_files : str -> World -> option (list item) * World.
Variable read_docx_file_content : str -> World -> str * World.
Variable analyze_document : str -> World -> str * World.
Variable json_loads : str -> result json.
Variable excel_writer : str -> Codebook -> World -> option exn.

(** [list_files] is [files().list(...).execute()] read at its key files,
    [None] when the key is missing. *)
Definition script (environ : dict str) (w : World) : list step * ending :=
  match module_init environ with
  | Raise e => ([], Failed e)
  | Ok (api_key, gdrive_credentials_file) =>
      let started := [GroqClient api_key; DriveService gdrive_credentials_file] in
      let folder_id := getenv environ GDRIVE_FOLDER_ID in
      if unset folder_id then (started, Failed (ValueError missing_folder))
      else
        let (results, w1) := list_files (query_for (text folder_id)) w in
        let items := match results with Some l => l | None => [] end in
        let (evs, o) :=
          main read_docx_file_content analyze_document json_loads
               excel_writer items w1 in
        (started ++ DriveList (query_for (text folder_id)) :: map Shown evs,
         Ended o)
  end.
End Script.

(** A paragraph, or a text, of white space only. *)
Definition blank_text (p : str) : Prop := forallb isspace p = true.

(** A step before the listing: the two clients. *)
Definition setup_step (st : step) : Prop :=
  match st with
  | GroqClient _ | DriveService _ => True
  | DriveList _ | Shown _ => False
  end.

(** A folder of the examples with no file in it, and one whose listing has
    no files key. *)
Definition demo_list (query : str) (w : nat) : option (list item) * nat :=
  (if str_eqb query (query_for (py "vide")) then None else Some [doc3], w).

(** Paragraphs of the examples: file "blank" has three of white space. *)
Definition demo_paragraphs (file_id : str) (w : nat) : list str * nat :=
  (if str_eqb file_id (py "blank") then [[SPACE]; []; [SPACE; SPACE]]
   else [py "Bonjour"; []; py "Question 1"], w).

(** No newline of [s] stands right after a backslash; [after_bs] tells
    whether a backslash stands right before [s]. *)
Fixpoint pairs_free (after_bs : bool) (s : str) : bool :=
  match s with
  | [] => true
  | c :: rest =>
      negb (after_bs && N.eqb c LF) && pairs_free (N.eqb c BACKSLASH) rest
  end.

(** A character other than the backslash. *)
Definition plain (c : char) : bool := negb (N.eqb c BACKSLASH).

(** What the sanitizer does to a character no backslash precedes: a newline
    becomes a space. *)
Definition soften (c : char) : char := if N.eqb c LF then SPACE else c.

(** An answer with its JSON object spread over several lines. *)
Definition multi_line_response : str :=
  py "Voici:" ++ [LF] ++ py "{" ++ [LF] ++ py "  " ++ quoted (py "themes")
    ++ py ": [" ++ [LF] ++ py "  ]" ++ [LF] ++ py "}" ++ [LF] ++ py "Fin.".

(** ** The text of a coding payload

    The prompt of [analyze_document] asks for one JSON object: a key
    themes with a list of blocks, each with a theme, its codages and its
    verbatims.  [payload_text p] is that object for the payload [p], written
    without white space between the tokens and with every string as it is,
    between quotes.  The functions below write one piece of it in front of
    the text [k] that follows. *)

(** A character a JSON string holds as it is: no control character, no
    quote, no backslash. *)
Definition literal_char (c : char) : bool :=
  N.leb 32 c && negb (N.eqb c DQUOTE) && negb (N.eqb c BACKSLASH).

(** ... or a newline, which the service may leave in a string. *)
Definition answer_char (c : char) : bool := N.eqb c LF || literal_char c.

Definition put_str (x k : str) : str := DQUOTE :: x ++ DQUOTE :: k.

Fixpoint put_items (l : list str) (k : str) : str :=
  match l with
  | [] => k
  | x :: rest =>
      put_str x (match rest with
                 | [] => k
                 | _ :: _ => 44%N :: put_items rest k
                 end)
  end.

Definition put_list (l : list str) (k : str) : str :=
  91%N :: put_items l (93%N :: k).

Definition put_block (b : ThemeBlock) (k : str) : str :=
  LBRACE
    :: put_str (py "theme")
         (58%N :: put_str (theme b)
            (44%N :: put_str (py "codages")
               (58%N :: put_list (codings b)
                  (44%N :: put_str (py "verbatims")
                     (58%N :: put_list (verbatims b) (RBRACE :: k)))))).

Fixpoint put_blocks (p : list ThemeBlock) (k : str) : str :=
  match p with
  | [] => k
  | b :: rest =>
      put_block b (match rest with
                   | [] => k
                   | _ :: _ => 44%N :: put_blocks rest k
                   end)
  end.

Definition payload_text (p : CodingPayload) : str :=
  LBRACE :: put_str (py "themes") (58%N :: 91%N :: put_blocks p [93%N; RBRACE]).

(** Every character of every string of [b] satisfies [P]. *)
Definition block_chars (P : char -> bool) (b : ThemeBlock) : bool :=
  forallb P (theme b)
  && forallb (forallb P) (codings b)
  && forallb (forallb P) (verbatims b).

Definition literal_block : ThemeBlock -> bool := block_chars literal_char.
Definition answer_block : ThemeBlock -> bool := block_chars answer_char.

(** The block with the newlines of its strings turned into spaces. *)
Definition soften_block (b : ThemeBlock) : ThemeBlock :=
  mk_block (map soften (theme b))
           (map (map soften) (codings b))
           (map (map soften) (verbatims b)).

(** Nesting the decoder goes through on the blocks of [p]. *)
Fixpoint need_blocks (p : list ThemeBlock) : nat :=
  match p with
  | [] => 0
  | b :: rest =>
      S (Nat.max (Nat.max (List.length (codings b)) (List.length (verbatims b)) + 7)
                 (need_blocks rest))
  end.

(** An answer in the format the prompt asks for: the text of a payload
    whose strings may hold newlines, after words without an opening brace
    and before words without a closing brace. *)
Definition well_formed (analysis : str) : Prop :=
  exists pre p post,
    ~ In LBRACE pre /\ ~ In RBRACE post
    /\ forallb answer_block p = true
    /\ analysis = pre ++ payload_text p ++ post.

(** The table of some payload without newlines. *)
Definition payload_table (table : DataFrame) : Prop :=
  exists p, forallb literal_block p = true
            /\ table = List.concat (map block_table p).

(** A service that gives the answer of the end-to-end example to every
    text. *)
Definition steady_analyze (text : str) (w : nat) : str * nat :=
  (example_response, S w).
(** * Properties *)

(** ** Strings *)

Lemma str_eqb_eq (a b : str) : str_eqb a b = true <-> a = b.
Proof.
  revert b; induction a as [|x a IH]; intros [|y b]; simpl; split;
    try congruence; try reflexivity.
  - intros H. apply andb_true_iff in H as [Hx Hab].
    apply N.eqb_eq in Hx. apply IH in Hab. congruence.
  - intros H. injection H as -> ->.
    rewrite N.eqb_refl. simpl. now apply IH.
Qed.

Lemma str_eqb_refl (a : str) : str_eqb a a = true.
Proof. now apply str_eqb_eq. Qed.

Lemma str_eqb_neq (a b : str) : str_eqb a b = false <-> a <> b.
Proof.
  split.
  - intros H E. apply str_eqb_eq in E. congruence.
  - intros H. destruct (str_eqb a b) eqn:E; [|reflexivity].
    apply str_eqb_eq in E. contradiction.
Qed.

Lemma slice_to_length (n : nat) (s : str) : List.length (slice_to n s) <= n.
Proof. unfold slice_to. apply firstn_le_length. Qed.

(** [strip] leaves nothing exactly when every character is white space. *)
Lemma lstrip_nil (s : str) : lstrip s = [] <-> forallb isspace s = true.
Proof.
  induction s as [|c s IH]; simpl; [tauto|].
  destruct (isspace c); simpl; [exact IH|].
  split; discriminate.
Qed.

Lemma strip_nil (s : str) : strip s = [] <-> forallb isspace s = true.
Proof.
  rewrite <- lstrip_nil. unfold strip, rstrip. split.
  - intros H. destruct (lstrip s) as [|c l] eqn:E; [reflexivity|].
    exfalso. apply (f_equal (@rev char)) in H. rewrite rev_involutive in H.
    simpl in H. apply lstrip_nil in H. rewrite forallb_app in H.
    apply andb_true_iff in H as [_ H]. simpl in H.
    assert (Hc : isspace c = false).
    { destruct s as [|d s']; simpl in E; [discriminate|].
      clear H. revert d E. induction s' as [|d' s' IHs]; intros d E.
      - simpl in E. destruct (isspace d) eqn:Ed; [discriminate|].
        injection E as -> _. exact Ed.
      - simpl in E. destruct (isspace d) eqn:Ed.
        + apply (IHs d'). exact E.
        + injection E as -> _. exact Ed. }
    rewrite Hc in H. discriminate.
  - intros ->. reflexivity.
Qed.

Lemma py_not_strip (s : str) :
  py_not (strip s) = true <-> forallb isspace s = true.
Proof.
  rewrite <- strip_nil. destruct (strip s); simpl; split;
    congruence || reflexivity.
Qed.

(** ** [clean_json_string] *)

Lemma sub_newlines_length (prev : option char) (s : str) :
  List.length (sub_newlines prev s) = List.length s.
Proof.
  revert prev; induction s as [|c s IH]; intros prev; simpl;
    [reflexivity | now rewrite IH].
Qed.

Lemma sub_newlines_nth (s : str) (prev : option char) (i : nat) :
  nth_error (sub_newlines prev s) i =
  option_map
    (fun c => if N.eqb c LF && negb (preceded_by_backslash (before prev s i))
              then SPACE else c)
    (nth_error s i).
Proof.
  revert prev i; induction s as [|c s IH]; intros prev [|i]; simpl;
    try reflexivity.
  rewrite IH. destruct i; reflexivity.
Qed.

Lemma escaped_at_before (s : str) (i : nat) :
  escaped_at s i <-> preceded_by_backslash (before None s i) = true.
Proof.
  unfold escaped_at. destruct i as [|j]; simpl.
  - split; [intros (j & E & _); discriminate | discriminate].
  - split.
    + intros (j' & E & H). injection E as ->. rewrite H.
      apply N.eqb_refl.
    + destruct (nth_error s j) as [p|] eqn:E; simpl; [|discriminate].
      intros H. apply N.eqb_eq in H. subst p. now exists j.
Qed.

Lemma clean_nth_unescaped (s : str) (i : nat) :
  unescaped_newline s i -> nth_error (clean_json_string s) i = Some SPACE.
Proof.
  intros [Hlf Hesc]. unfold clean_json_string.
  rewrite sub_newlines_nth, Hlf. simpl.
  destruct (preceded_by_backslash (before None s i)) eqn:E; [|reflexivity].
  exfalso. apply Hesc. now apply escaped_at_before.
Qed.

Lemma clean_nth_other (s : str) (i : nat) :
  ~ unescaped_newline s i ->
  nth_error (clean_json_string s) i = nth_error s i.
Proof.
  intros H. unfold clean_json_string. rewrite sub_newlines_nth.
  destruct (nth_error s i) as [c|] eqn:Ec; simpl; [|reflexivity].
  destruct (N.eqb c LF) eqn:Elf; simpl; [|reflexivity].
  destruct (preceded_by_backslash (before None s i)) eqn:E; [reflexivity|].
  exfalso. apply H. apply N.eqb_eq in Elf. subst c. split; [exact Ec|].
  intros Hx. apply escaped_at_before in Hx. congruence.
Qed.

Lemma nth_error_ext (A : Type) (l l' : list A) :
  (forall i, nth_error l i = nth_error l' i) -> l = l'.
Proof.
  revert l'; induction l as [|x l IH]; intros [|y l'] H.
  - reflexivity.
  - specialize (H 0). discriminate.
  - specialize (H 0). discriminate.
  - pose proof (H 0) as H0. simpl in H0. injection H0 as ->.
    f_equal. apply IH. intros i. exact (H (S i)).
Qed.

(** C4. [clean_json_string] is a total function from strings to strings of
    the same length; a newline that no backslash immediately precedes
    becomes one space, every other character (so also a backslash and the
    newline it escapes) stays where and what it was, and a string without an
    unescaped newline comes back unchanged. *)
Theorem clean_json_string_spec (s : str) :
  List.length (clean_json_string s) = List.length s
  /\ (forall i, unescaped_newline s i ->
                nth_error (clean_json_string s) i = Some SPACE)
  /\ (forall i, ~ unescaped_newline s i ->
                nth_error (clean_json_string s) i = nth_error s i)
  /\ (forall j, nth_error s j = Some BACKSLASH ->
                nth_error s (S j) = Some LF ->
                nth_error (clean_json_string s) j = Some BACKSLASH
                /\ nth_error (clean_json_string s) (S j) = Some LF)
  /\ ((forall i, ~ unescaped_newline s i) -> clean_json_string s = s).
Proof.
  split; [apply sub_newlines_length|].
  split; [apply clean_nth_unescaped|].
  split; [apply clean_nth_other|].
  split.
  - intros j Hb Hn. split.
    + rewrite clean_nth_other; [exact Hb|].
      intros [H _]. rewrite Hb in H. discriminate.
    + rewrite clean_nth_other; [exact Hn|].
      intros [_ H]. apply H. now exists j.
  - intros H. apply nth_error_ext. intros i. now apply clean_nth_other.
Qed.

(** ** [extract_json] *)

Lemma greedy_rbrace_none (s : str) :
  greedy_rbrace s = None <-> ~ In RBRACE s.
Proof.
  induction s as [|c s IH]; simpl; [tauto|].
  destruct (greedy_rbrace s) as [m|].
  - split; [discriminate|]. intros H. exfalso.
    assert (Hs : ~ In RBRACE s) by tauto.
    apply IH in Hs. discriminate.
  - destruct (N.eqb c RBRACE) eqn:E.
    + apply N.eqb_eq in E. split; [discriminate | intros H; exfalso; auto].
    + apply N.eqb_neq in E. split; [|reflexivity].
      intros _ [H|H]; [congruence|]. now apply IH in H.
Qed.

Lemma greedy_rbrace_last (mid post : str) :
  ~ In RBRACE post ->
  greedy_rbrace (mid ++ RBRACE :: post) = Some (mid ++ [RBRACE]).
Proof.
  intros Hpost. induction mid as [|c mid IH]; simpl.
  - apply greedy_rbrace_none in Hpost. rewrite Hpost. reflexivity.
  - rewrite IH. reflexivity.
Qed.

Lemma re_search_skip (pre s : str) :
  ~ In LBRACE pre -> re_search (pre ++ s) = re_search s.
Proof.
  induction pre as [|c pre IH]; simpl; intros H; [reflexivity|].
  destruct (N.eqb c LBRACE) eqn:E.
  - apply N.eqb_eq in E. exfalso. auto.
  - apply IH. tauto.
Qed.

Lemma re_search_span (pre mid post : str) :
  ~ In LBRACE pre -> ~ In RBRACE post ->
  re_search (pre ++ LBRACE :: mid ++ RBRACE :: post)
  = Some (LBRACE :: mid ++ [RBRACE]).
Proof.
  intros Hpre Hpost. rewrite re_search_skip by exact Hpre. simpl.
  rewrite greedy_rbrace_last by exact Hpost. reflexivity.
Qed.

(** Cutting a list at the first, and at the last, occurrence of a value. *)
Lemma split_first (x : char) (l : str) (i : nat) :
  nth_error l i = Some x ->
  exists pre rest,
    l = pre ++ x :: rest /\ ~ In x pre /\ List.length pre <= i.
Proof.
  revert i; induction l as [|c l IH]; intros i H.
  - destruct i; discriminate.
  - destruct (N.eq_dec c x) as [->|Hc].
    + exists [], l. simpl. repeat split; [tauto | lia].
    + destruct i as [|i]; simpl in H; [congruence|].
      destruct (IH i H) as (pre & rest & -> & Hpre & Hlen).
      exists (c :: pre), rest. simpl. repeat split; [|lia].
      intros [E|E]; [congruence | contradiction].
Qed.

Lemma split_last (x : char) (l : str) :
  In x l -> exists mid post, l = mid ++ x :: post /\ ~ In x post.
Proof.
  induction l as [|c l IH]; intros H; [destruct H|].
  destruct (in_dec N.eq_dec x l) as [Hin|Hnot].
  - destruct (IH Hin) as (mid & post & -> & Hpost).
    exists (c :: mid), post. now split.
  - destruct H as [->|H]; [|contradiction].
    exists [], l. now split.
Qed.

Lemma brace_pair_split (text : str) (i j : nat) :
  brace_pair text i j ->
  exists pre mid post,
    text = pre ++ LBRACE :: mid ++ RBRACE :: post
    /\ ~ In LBRACE pre /\ ~ In RBRACE post.
Proof.
  intros (Hij & Hi & Hj).
  destruct (split_first _ _ Hi) as (pre & rest & -> & Hpre & Hlen).
  assert (Hin : In RBRACE rest).
  { rewrite nth_error_app2 in Hj by lia.
    destruct (j - List.length pre) as [|k] eqn:E; [lia|].
    simpl in Hj. eapply nth_error_In; eauto. }
  destruct (split_last _ _ Hin) as (mid & post & -> & Hpost).
  now exists pre, mid, post.
Qed.

Lemma re_search_some_pair (text m : str) :
  re_search text = Some m -> exists i j, brace_pair text i j.
Proof.
  revert m; induction text as [|c text IH]; intros m; simpl; [discriminate|].
  destruct (N.eqb c LBRACE) eqn:E.
  - apply N.eqb_eq in E. subst c.
    destruct (greedy_rbrace text) as [m'|] eqn:G.
    + intros _.
      assert (Hin : In RBRACE text).
      { destruct (in_dec N.eq_dec RBRACE text) as [H|H]; [exact H|].
        apply greedy_rbrace_none in H. congruence. }
      apply In_nth_error in Hin as [k Hk].
      exists 0, (S k). repeat split; [lia | exact Hk].
    + intros H. destruct (IH _ H) as (i & j & Hij & Hi & Hj).
      exists (S i), (S j). repeat split; [lia | exact Hi | exact Hj].
  - intros H. destruct (IH _ H) as (i & j & Hij & Hi & Hj).
    exists (S i), (S j). repeat split; [lia | exact Hi | exact Hj].
Qed.

(** C3. When the text has an opening brace with a closing brace somewhere
    after it, [extract_json] returns the span that starts at the first
    opening brace of the text and ends at its last closing brace, whatever
    braces lie in between; and on chatter {"a":1} trailer it returns
    {"a":1}. *)
Theorem extract_json_first_to_last :
  (forall pre mid post : str,
      ~ In LBRACE pre -> ~ In RBRACE post ->
      extract_json (pre ++ LBRACE :: mid ++ RBRACE :: post)
      = Ok (LBRACE :: mid ++ [RBRACE]))
  /\ (forall (text : str) (i j : nat),
         brace_pair text i j ->
         exists pre mid post,
           text = pre ++ LBRACE :: mid ++ RBRACE :: post
           /\ ~ In LBRACE pre /\ ~ In RBRACE post
           /\ extract_json text = Ok (LBRACE :: mid ++ [RBRACE]))
  /\ extract_json (py "chatter {" ++ quoted (py "a") ++ py ":1} trailer")
     = Ok (py "{" ++ quoted (py "a") ++ py ":1}").
Proof.
  assert (A : forall pre mid post : str,
             ~ In LBRACE pre -> ~ In RBRACE post ->
             extract_json (pre ++ LBRACE :: mid ++ RBRACE :: post)
             = Ok (LBRACE :: mid ++ [RBRACE])).
  { intros pre mid post Hpre Hpost. unfold extract_json.
    now rewrite re_search_span. }
  split; [exact A|]. split; [|reflexivity].
  intros text i j H.
  destruct (brace_pair_split H) as (pre & mid & post & -> & Hpre & Hpost).
  exists pre, mid, post. repeat split; auto.
Qed.

(** C5. [extract_json] raises its [ValueError] exactly when the text has no
    opening brace with a closing brace after it, and so on every text
    without an opening brace; otherwise it returns. *)
Theorem extract_json_fails_iff (text : str) :
  (extract_json text = Raise (ValueError no_json_message)
   <-> ~ exists i j, brace_pair text i j)
  /\ (~ In LBRACE text ->
      extract_json text = Raise (ValueError no_json_message))
  /\ ((exists i j, brace_pair text i j) ->
      exists span, extract_json text = Ok span).
Proof.
  assert (Hno : (~ exists i j, brace_pair text i j) ->
                extract_json text = Raise (ValueError no_json_message)).
  { intros H. unfold extract_json.
    destruct (re_search text) as [m|] eqn:E; [|reflexivity].
    exfalso. apply H. eapply re_search_some_pair; eauto. }
  assert (Hyes : (exists i j, brace_pair text i j) ->
                 exists span, extract_json text = Ok span).
  { intros (i & j & H).
    destruct (brace_pair_split H) as (pre & mid & post & -> & Hpre & Hpost).
    exists (LBRACE :: mid ++ [RBRACE]). unfold extract_json.
    now rewrite re_search_span. }
  split; [split|split].
  - intros H Hex. destruct (Hyes Hex) as [span Hs]. congruence.
  - exact Hno.
  - intros H. apply Hno. intros (i & j & _ & Hi & _).
    apply H. eapply nth_error_In; eauto.
  - exact Hyes.
Qed.

(** ** Row construction *)

Lemma zip_length (A B : Type) (xs : list A) (ys : list B) :
  List.length (zip xs ys) = Nat.min (List.length xs) (List.length ys).
Proof.
  revert ys; induction xs as [|x xs IH]; intros [|y ys]; simpl;
    try reflexivity.
  now rewrite IH.
Qed.

Lemma zip_nth (A B : Type) (xs : list A) (ys : list B) i x y :
  nth_error xs i = Some x -> nth_error ys i = Some y ->
  nth_error (zip xs ys) i = Some (x, y).
Proof.
  revert ys i; induction xs as [|a xs IH]; intros [|b ys] [|i]; simpl;
    try discriminate.
  - congruence.
  - apply IH.
Qed.

Lemma zip_nil_r (A B : Type) (xs : list A) : zip xs (@nil B) = [].
Proof. destruct xs; reflexivity. Qed.

Lemma append_pairs_rows (th : json) pairs (df_rows : DataFrame) :
  append_pairs th pairs df_rows = df_rows ++ rows_of th pairs.
Proof.
  revert df_rows; induction pairs as [|[c v] pairs IH]; intros df_rows; simpl.
  - now rewrite app_nil_r.
  - rewrite IH, <- app_assoc. reflexivity.
Qed.

(** What one turn of the theme loop does to a [dict]. *)
Lemma theme_rows_obj (members : dict json) (df_rows : DataFrame) :
  theme_rows (JObj members) df_rows =
  (cs <- py_iter (dict_get_default members (py "codages") (JArr [])) ;;
   vs <- py_iter (dict_get_default members (py "verbatims") (JArr [])) ;;
   Ok (df_rows
       ++ rows_of (dict_get_default members (py "theme") (JStr []))
                  (zip cs vs))).
Proof.
  unfold theme_rows. simpl.
  destruct (py_iter (dict_get_default members (py "codages") (JArr [])));
    simpl; [|reflexivity].
  destruct (py_iter (dict_get_default members (py "verbatims") (JArr [])));
    simpl; [|reflexivity].
  now rewrite append_pairs_rows.
Qed.

Lemma theme_rows_block (b : ThemeBlock) (df_rows : DataFrame) :
  theme_rows (block_json b) df_rows = Ok (df_rows ++ block_table b).
Proof. unfold block_json. rewrite theme_rows_obj. reflexivity. Qed.

Lemma block_table_pairs (b : ThemeBlock) : pairs_block b (block_table b).
Proof.
  unfold block_table. split.
  - unfold rows_of. now rewrite length_map, zip_length, !length_map.
  - intros i c v Hc Hv. unfold rows_of.
    rewrite nth_error_map.
    rewrite (@zip_nth _ _ _ _ i (JStr c) (JStr v)).
    + reflexivity.
    + now rewrite nth_error_map, Hc.
    + now rewrite nth_error_map, Hv.
Qed.

Lemma themes_loop_payload (p : CodingPayload) (df_rows : DataFrame) :
  themes_loop (map block_json p) df_rows
  = Ok (df_rows ++ List.concat (map block_table p)).
Proof.
  revert df_rows; induction p as [|b p IH]; intros df_rows.
  - simpl. now rewrite app_nil_r.
  - cbn [map themes_loop List.concat]. rewrite theme_rows_block.
    cbn [bind]. rewrite IH, app_assoc. reflexivity.
Qed.

Lemma build_rows_payload (p : CodingPayload) :
  build_rows (payload_json p) = themes_loop (map block_json p) [].
Proof. reflexivity. Qed.

(** C1. On every payload the rows are the concatenation, in theme order, of
    one table per theme block; the table of a block has as many rows as the
    shorter of its two lists and its row [i] pairs coding [i] with verbatim
    [i] under the block's theme, so what the longer list has in excess is
    dropped and nothing is raised.  Codings c1, c2, c3 with verbatims v1, v2
    give the two rows (theme, c1, v1) and (theme, c2, v2); no theme gives
    no row. *)
Theorem build_rows_pairs_in_order :
  (forall p : CodingPayload,
      exists tables,
        build_rows (payload_json p) = Ok (List.concat tables)
        /\ Forall2 pairs_block p tables)
  /\ (forall th : str,
         build_rows
           (payload_json
              [mk_block th [py "c1"; py "c2"; py "c3"] [py "v1"; py "v2"]])
         = Ok [mk_row (JStr th) (JStr (py "c1")) (JStr (py "v1"));
               mk_row (JStr th) (JStr (py "c2")) (JStr (py "v2"))])
  /\ build_rows (payload_json []) = Ok [].
Proof.
  split; [|split; reflexivity].
  intros p. exists (map block_table p). split.
  - rewrite build_rows_payload. apply themes_loop_payload.
  - induction p as [|b p IH]; constructor;
      [apply block_table_pairs | exact IH].
Qed.

(** ** Dictionaries *)

Section DictFacts.
Variable V : Type.
Implicit Types (d : dict V) (k : str) (v : V).

Lemma dict_get_set_same d k v : dict_get (dict_set d k v) k = Some v.
Proof.
  induction d as [|[k' v'] d IH]; simpl.
  - now rewrite str_eqb_refl.
  - destruct (str_eqb k' k) eqn:E; simpl; rewrite E; [reflexivity | exact IH].
Qed.

Lemma dict_get_set_other d k v k' :
  k' <> k -> dict_get (dict_set d k v) k' = dict_get d k'.
Proof.
  intros Hne. induction d as [|[k0 v0] d IH]; simpl.
  - assert (E : str_eqb k k' = false) by (apply str_eqb_neq; congruence).
    now rewrite E.
  - destruct (str_eqb k0 k) eqn:E; simpl.
    + apply str_eqb_eq in E. subst k0.
      assert (E' : str_eqb k k' = false) by (apply str_eqb_neq; congruence).
      now rewrite E'.
    + destruct (str_eqb k0 k'); [reflexivity | exact IH].
Qed.

Lemma dict_keys_set d k v k' :
  In k' (dict_keys (dict_set d k v)) <-> k' = k \/ In k' (dict_keys d).
Proof.
  unfold dict_keys. induction d as [|[k0 v0] d IH]; simpl.
  - intuition.
  - destruct (str_eqb k0 k) eqn:E; simpl.
    + apply str_eqb_eq in E. subst k0. intuition.
    + rewrite IH. intuition.
Qed.

Lemma dict_keys_set_NoDup d k v :
  NoDup (dict_keys d) -> NoDup (dict_keys (dict_set d k v)).
Proof.
  unfold dict_keys. induction d as [|[k0 v0] d IH]; simpl; intros H.
  - constructor; [intros [] | constructor].
  - inversion H as [|? ? Hnot Hd]; subst.
    destruct (str_eqb k0 k) eqn:E; simpl.
    + now constructor.
    + constructor; [|now apply IH].
      intros Hin. apply (dict_keys_set d k v k0) in Hin as [Hin|Hin].
      * subst. rewrite str_eqb_refl in E. discriminate.
      * contradiction.
Qed.

Lemma dict_get_keys d k v : dict_get d k = Some v -> In k (dict_keys d).
Proof.
  unfold dict_keys. induction d as [|[k0 v0] d IH]; simpl; [discriminate|].
  destruct (str_eqb k0 k) eqn:E.
  - apply str_eqb_eq in E. now left.
  - intros H. right. now apply IH.
Qed.
End DictFacts.

Lemma NoDup_count_occ_one (l : list str) (k : str) :
  NoDup l -> In k l -> count_occ str_eq_dec l k = 1.
Proof.
  intros Hnd Hin.
  pose proof (proj1 (NoDup_count_occ str_eq_dec l) Hnd k) as Hle.
  pose proof (proj1 (count_occ_In str_eq_dec l k) Hin) as Hgt.
  lia.
Qed.

(** ** The loop of [main] *)

Section LoopFacts.
Variable World : Type.
Variable read_docx_file_content : str -> World -> str * World.
Variable analyze_document : str -> World -> str * World.
Variable json_loads : str -> result json.
Variable excel_writer : str -> Codebook -> World -> option exn.

Abbreviation body := (loop_body read_docx_file_content analyze_document json_loads).
Abbreviation loop := (for_items read_docx_file_content analyze_document json_loads).
Abbreviation run :=
  (main read_docx_file_content analyze_document json_loads excel_writer).
Abbreviation blank' := (blank read_docx_file_content).
Abbreviation answered' := (answered read_docx_file_content analyze_document).
Abbreviation tabulated' :=
  (tabulated read_docx_file_content analyze_document json_loads).

Lemma not_blank_py_not (content : str) :
  forallb isspace content = false -> py_not (strip content) = false.
Proof.
  intros H. destruct (py_not (strip content)) eqn:E; [|reflexivity].
  apply py_not_strip in E. congruence.
Qed.

Lemma body_blank it cb w w' :
  blank' it w w' -> body it cb w = (skipped it, Next cb w').
Proof.
  intros (content & Hr & Hb). unfold loop_body. rewrite Hr.
  apply py_not_strip in Hb. now rewrite Hb.
Qed.

Lemma body_parse_error it cb w content analysis w' e :
  answered' it w content analysis w' ->
  parse_response json_loads analysis = Raise e ->
  body it cb w
  = (seen it content ++ [PrintParseError e; PrintRaw analysis],
     Return_ analysis w').
Proof.
  intros (w1 & Hr & Hb & Ha) Hp. unfold loop_body.
  rewrite Hr, (not_blank_py_not _ Hb), Ha, Hp. reflexivity.
Qed.

Lemma body_uncaught it cb w content analysis w' data e :
  answered' it w content analysis w' ->
  parse_response json_loads analysis = Ok data ->
  build_rows data = Raise e ->
  body it cb w = (seen it content, Propagate e w').
Proof.
  intros (w1 & Hr & Hb & Ha) Hp Hbuild. unfold loop_body.
  rewrite Hr, (not_blank_py_not _ Hb), Ha, Hp, Hbuild. reflexivity.
Qed.

Lemma body_stored it cb w content analysis w' data table :
  answered' it w content analysis w' ->
  parse_response json_loads analysis = Ok data ->
  build_rows data = Ok table ->
  body it cb w = (seen it content, Next (dict_set cb (sheet it) table) w').
Proof.
  intros (w1 & Hr & Hb & Ha) Hp Hbuild. unfold loop_body.
  rewrite Hr, (not_blank_py_not _ Hb), Ha, Hp, Hbuild. reflexivity.
Qed.

(** A turn that goes on either skipped a blank document or stored the
    table of an answered one. *)
Lemma body_next_inv it cb w evs cb' w' :
  body it cb w = (evs, Next cb' w') ->
  (blank' it w w' /\ cb' = cb /\ evs = skipped it)
  \/ (exists table content,
        tabulated' it w table w' /\ cb' = dict_set cb (sheet it) table
        /\ evs = seen it content).
Proof.
  unfold loop_body.
  destruct (read_docx_file_content (id it) w) as [content w1] eqn:Hr.
  destruct (py_not (strip content)) eqn:Hb.
  - intros H. injection H as <- <- <-. left.
    split; [|now split]. exists content. split; [exact Hr|].
    now apply py_not_strip.
  - destruct (analyze_document content w1) as [analysis w2] eqn:Ha.
    destruct (parse_response json_loads analysis) as [data|e] eqn:Hp;
      [|discriminate].
    destruct (build_rows data) as [table|e] eqn:Hbuild; [|discriminate].
    intros H. injection H as <- <- <-. right.
    exists table, content. split; [|now split].
    exists content, analysis, data. split; [|now split].
    exists w1. split; [exact Hr|]. split; [|exact Ha].
    destruct (forallb isspace content) eqn:E; [|reflexivity].
    apply py_not_strip in E. congruence.
Qed.

Lemma loop_cons it rest cb w :
  loop (it :: rest) cb w =
  match body it cb w with
  | (evs, Next cb' w') =>
      let (evs', t) := loop rest cb' w' in (evs ++ evs', t)
  | stopped => stopped
  end.
Proof. reflexivity. Qed.

Lemma loop_app pre rest cb w :
  loop (pre ++ rest) cb w =
  match loop pre cb w with
  | (evs, Next cb' w') =>
      let (evs', t) := loop rest cb' w' in (evs ++ evs', t)
  | stopped => stopped
  end.
Proof.
  revert cb w; induction pre as [|it pre IH]; intros cb w.
  - simpl. now destruct (loop rest cb w).
  - rewrite <- app_comm_cons, !loop_cons.
    destruct (body it cb w) as [evs [cb1 w1|a w1|e w1]]; try reflexivity.
    rewrite IH.
    destruct (loop pre cb1 w1) as [evs1 [cb2 w2|a w2|e w2]]; try reflexivity.
    destruct (loop rest cb2 w2) as [evs2 t]. now rewrite app_assoc.
Qed.

Lemma body_events it cb w : Forall turn_event (fst (body it cb w)).
Proof.
  unfold loop_body.
  destruct (read_docx_file_content (id it) w) as [content w1].
  destruct (py_not (strip content)) eqn:Hb.
  - simpl. repeat constructor.
  - assert (Hc : forallb isspace content = false).
    { destruct (forallb isspace content) eqn:E; [|reflexivity].
      apply py_not_strip in E. congruence. }
    destruct (analyze_document content w1) as [analysis w2].
    destruct (parse_response json_loads analysis) as [data|e].
    + destruct (build_rows data); simpl; repeat constructor; exact Hc.
    + simpl. repeat constructor; exact Hc.
Qed.

Lemma loop_events items cb w : Forall turn_event (fst (loop items cb w)).
Proof.
  revert cb w; induction items as [|it items IH]; intros cb w.
  - constructor.
  - rewrite loop_cons. pose proof (body_events it cb w) as Hb.
    destruct (body it cb w) as [evs [cb1 w1|a w1|e w1]]; simpl in Hb;
      try exact Hb.
    specialize (IH cb1 w1). destruct (loop items cb1 w1) as [evs' t].
    simpl in *. apply Forall_app. now split.
Qed.

(** The keys of the codebook: pairwise distinct, and each the sheet name of
    a document of the listing. *)
Lemma body_keys it cb w evs cb' w' :
  body it cb w = (evs, Next cb' w') ->
  (NoDup (dict_keys cb) -> NoDup (dict_keys cb'))
  /\ forall k, In k (dict_keys cb') -> In k (dict_keys cb) \/ k = sheet it.
Proof.
  intros H. apply body_next_inv in H
    as [(_ & -> & _)|(table & content & _ & -> & _)].
  - split; auto.
  - split; [apply dict_keys_set_NoDup|].
    intros k Hk. apply dict_keys_set in Hk. tauto.
Qed.

Lemma loop_keys items cb w evs cb' w' :
  loop items cb w = (evs, Next cb' w') ->
  (NoDup (dict_keys cb) -> NoDup (dict_keys cb'))
  /\ forall k, In k (dict_keys cb') ->
               In k (dict_keys cb) \/ exists it, In it items /\ k = sheet it.
Proof.
  revert cb w evs; induction items as [|it items IH]; intros cb w evs.
  - simpl. intros H. injection H as _ <- _. split; auto.
  - rewrite loop_cons.
    destruct (body it cb w) as [evs0 [cb1 w1|a w1|e w1]] eqn:Hb;
      try discriminate.
    destruct (loop items cb1 w1) as [evs1 t] eqn:Hl.
    intros H. injection H as _ ->.
    destruct (body_keys _ _ _ Hb) as [Hnd Hk].
    destruct (IH _ _ _ Hl) as [Hnd' Hk'].
    split; [auto|].
    intros k Hin. destruct (Hk' k Hin) as [H1|(it' & Hit & ->)].
    + destruct (Hk k H1) as [H2| ->]; [now left|].
      right. exists it. split; [now left | reflexivity].
    + right. exists it'. split; [now right | reflexivity].
Qed.

(** Turns on documents with other sheet names leave an entry alone. *)
Lemma loop_get_other items cb w evs cb' w' k :
  loop items cb w = (evs, Next cb' w') ->
  (forall it, In it items -> sheet it <> k) ->
  dict_get cb' k = dict_get cb k.
Proof.
  revert cb w evs; induction items as [|it items IH]; intros cb w evs.
  - simpl. intros H _. now injection H as _ <- _.
  - rewrite loop_cons.
    destruct (body it cb w) as [evs0 [cb1 w1|a w1|e w1]] eqn:Hb;
      try discriminate.
    destruct (loop items cb1 w1) as [evs1 t] eqn:Hl.
    intros H Hne. injection H as _ ->.
    rewrite (IH _ _ _ Hl) by (intros it' Hin; apply Hne; now right).
    apply body_next_inv in Hb
      as [(_ & -> & _)|(table & content & _ & -> & _)]; [reflexivity|].
    apply dict_get_set_other. intros E. apply (Hne it); [now left | auto].
Qed.

Lemma tabulated_body it cb w table w' :
  tabulated' it w table w' ->
  exists content,
    body it cb w = (seen it content, Next (dict_set cb (sheet it) table) w').
Proof.
  intros (content & analysis & data & Ha & Hp & Hb).
  exists content. eapply body_stored; eauto.
Qed.

(** *** The run as a whole *)

Lemma run_cases items w :
  items <> [] ->
  run items w =
  match loop items [] w with
  | (evs, Next codebook w') =>
      match excel_writer output_file codebook w' with
      | None =>
          (evs ++ [ExcelWrite output_file codebook; PrintDone output_file],
           Written codebook)
      | Some e => (evs ++ [ExcelWrite output_file codebook], Uncaught e)
      end
  | (evs, Return_ analysis _) => (evs, ParseAbort analysis)
  | (evs, Propagate e _) => (evs, Uncaught e)
  end.
Proof. destruct items; [congruence | reflexivity]. Qed.

Lemma run_written items w evs cb :
  run items w = (evs, Written cb) ->
  exists evs' w', loop items [] w = (evs', Next cb w').
Proof.
  destruct items as [|it items]; [discriminate|].
  rewrite run_cases by discriminate.
  destruct (loop (it :: items) [] w) as [evs' [cb' w'|a w'|e w']];
    intros H; try discriminate.
  destruct (excel_writer output_file cb' w'); [discriminate|].
  injection H as _ <-. now exists evs', w'.
Qed.

(** [firstn 31] is the slice [[:31]]: the characters at the positions below
    31, in place. *)
Lemma firstn_nth_error (s : str) (n i : nat) :
  nth_error (firstn n s) i = if i <? n then nth_error s i else None.
Proof. apply nth_error_firstn. Qed.

Lemma parse_response_raise analysis e :
  extract_json analysis = Raise e
  \/ (exists span, extract_json analysis = Ok span
                   /\ json_loads (clean_json_string span) = Raise e) ->
  parse_response json_loads analysis = Raise e.
Proof.
  unfold parse_response. intros [H|(span & H1 & H2)].
  - now rewrite H.
  - rewrite H1. exact H2.
Qed.

Lemma loop_stops_at_parse_error pre it post w evs cb w1 content analysis w2 e :
  loop pre [] w = (evs, Next cb w1) ->
  answered' it w1 content analysis w2 ->
  parse_response json_loads analysis = Raise e ->
  loop (pre ++ it :: post) [] w
  = (evs ++ seen it content ++ [PrintParseError e; PrintRaw analysis],
     Return_ analysis w2).
Proof.
  intros Hpre Ha Hp. rewrite loop_app, Hpre, loop_cons.
  now rewrite (body_parse_error cb Ha Hp).
Qed.

(** C2. When the listing reaches a document whose answer has no JSON span,
    or whose sanitized span [json.loads] rejects, the run ends there with
    the [return] of the [except] branch: its events are those of the
    documents before, the turn of this document, the error and the answer
    exactly as the service gave it; the documents after it have no part in
    the result, and no workbook is written, also not for the tables
    already in the codebook. *)
Theorem parse_failure_aborts_run
    pre it post w evs cb w1 content analysis w2 e :
  loop pre [] w = (evs, Next cb w1) ->
  answered' it w1 content analysis w2 ->
  (extract_json analysis = Raise e
   \/ (exists span, extract_json analysis = Ok span
                    /\ json_loads (clean_json_string span) = Raise e)) ->
  run (pre ++ it :: post) w
  = (evs ++ seen it content ++ [PrintParseError e; PrintRaw analysis],
     ParseAbort analysis)
  /\ run (pre ++ it :: post) w = run (pre ++ [it]) w
  /\ (forall file sheets,
         ~ In (ExcelWrite file sheets) (fst (run (pre ++ it :: post) w)))
  /\ (forall text,
         In (GroqCall text) (fst (run (pre ++ it :: post) w)) ->
         In (GroqCall text) (evs ++ [GroqCall content])).
Proof.
  intros Hpre Ha Hfail. apply parse_response_raise in Hfail.
  assert (Hrun : forall post',
             run (pre ++ it :: post') w
             = (evs ++ seen it content
                    ++ [PrintParseError e; PrintRaw analysis],
                ParseAbort analysis)).
  { intros post'. rewrite run_cases by (destruct pre; discriminate).
    now rewrite (@loop_stops_at_parse_error pre it post' w evs cb w1 content analysis w2 e Hpre Ha Hfail). }
  split; [apply Hrun|]. split; [now rewrite !Hrun|]. split.
  - intros file sheets. rewrite Hrun. simpl. intros Hin.
    apply in_app_or in Hin as [Hin|Hin].
    + pose proof (loop_events pre [] w) as Hev.
      rewrite Hpre in Hev. simpl in Hev.
      rewrite Forall_forall in Hev. exact (Hev _ Hin).
    + simpl in Hin. intuition discriminate.
  - intros text. rewrite Hrun. simpl. intros Hin.
    apply in_app_or in Hin as [Hin|Hin]; apply in_or_app;
      [now left | right].
    simpl in Hin. simpl. intuition discriminate || auto.
Qed.

(** C8. A document whose text is empty or white space only is reported
    and passed over: its turn shows the reading, the download and the
    notice, makes no call to the service and leaves the codebook as it
    was, and the loop goes on with the documents after it.  In a whole
    run the service is never called with a blank text. *)
Theorem blank_document_skipped :
  (forall pre it post w evs cb w0 w1,
      loop pre [] w = (evs, Next cb w0) ->
      blank' it w0 w1 ->
      body it cb w0 = (skipped it, Next cb w1)
      /\ loop (pre ++ it :: post) [] w
         = (let (evs', t) := loop post cb w1 in
            (evs ++ skipped it ++ evs', t)))
  /\ (forall items w text,
         In (GroqCall text) (fst (run items w)) ->
         forallb isspace text = false).
Proof.
  split.
  - intros pre it post w evs cb w0 w1 Hpre Hb.
    pose proof (body_blank cb Hb) as Hbody.
    split; [exact Hbody|].
    rewrite loop_app, Hpre, loop_cons, Hbody.
    now destruct (loop post cb w1).
  - intros items w text Hin.
    assert (Hloop : In (GroqCall text) (fst (loop items [] w))).
    { destruct items as [|it items];
        [simpl in Hin; intuition discriminate|].
      rewrite run_cases in Hin by discriminate.
      destruct (loop (it :: items) [] w) as [evs [cb w'|a w'|e w']];
        simpl in *; try exact Hin.
      destruct (excel_writer output_file cb w'); simpl in Hin;
        (apply in_app_or in Hin as [Hin|Hin]; [exact Hin|]);
        simpl in Hin; intuition discriminate. }
    pose proof (loop_events items [] w) as Hev.
    rewrite Forall_forall in Hev. exact (Hev _ Hloop).
Qed.

(** C7. Every key of the codebook the loop of [main] builds is the display
    name of one of the listed documents truncated to 31 characters: it is
    [firstn 31] of the name, that is [name[:31]], so it has the characters
    of the name at the positions below 31 and nothing after them, at most 31
    characters in all, and no key occurs twice.  The codebook a run writes
    is that codebook.  When two documents have the same truncated name and
    the later one gets a table, the entry holds the table of the later one
    at the end of the loop unless a document after it has that name too, and
    the key occurs once; two such documents alone leave one entry, with the
    table of the second, which is the codebook the run writes when the
    writer takes it. *)
Theorem codebook_keys_last_write_wins :
  (forall items w evs cb w',
      loop items [] w = (evs, Next cb w') ->
      NoDup (dict_keys cb)
      /\ forall k, In k (dict_keys cb) ->
                   List.length k <= 31
                   /\ exists it,
                        In it items
                        /\ k = firstn 31 (name it)
                        /\ List.length k
                           = Nat.min 31 (List.length (name it))
                        /\ forall i,
                             nth_error k i
                             = if i <? 31 then nth_error (name it) i
                               else None)
  /\ (forall items w evs cb,
         run items w = (evs, Written cb) ->
         exists evs' w', loop items [] w = (evs', Next cb w'))
  /\ (forall pre it1 mid it2 post w evs0 cb0 w0 t2 w2 evs cb w',
         firstn 31 (name it1) = firstn 31 (name it2) ->
         loop (pre ++ it1 :: mid) [] w = (evs0, Next cb0 w0) ->
         tabulated' it2 w0 t2 w2 ->
         (forall it, In it post ->
                     firstn 31 (name it) <> firstn 31 (name it2)) ->
         loop (pre ++ it1 :: mid ++ it2 :: post) [] w = (evs, Next cb w') ->
         dict_get cb (firstn 31 (name it1)) = Some t2
         /\ count_occ str_eq_dec (dict_keys cb) (firstn 31 (name it1)) = 1)
  /\ (forall it1 it2 w t1 w1 t2 w2,
         firstn 31 (name it1) = firstn 31 (name it2) ->
         tabulated' it1 w t1 w1 ->
         tabulated' it2 w1 t2 w2 ->
         snd (loop [it1; it2] [] w) = Next [(firstn 31 (name it1), t2)] w2
         /\ (excel_writer output_file [(firstn 31 (name it1), t2)] w2 = None ->
             snd (run [it1; it2] w)
             = Written [(firstn 31 (name it1), t2)])).
Proof.
  split; [|split; [|split]].
  - intros items w evs cb w' Hloop.
    destruct (loop_keys _ _ _ Hloop) as [Hnd Hk].
    split; [apply Hnd; constructor|].
    intros k Hin. destruct (Hk k Hin) as [[]|(it & Hit & ->)].
    split; [apply slice_to_length|]. exists it.
    unfold sheet, slice_to. split; [exact Hit|]. split; [reflexivity|].
    split; [apply length_firstn | intros i; apply firstn_nth_error].
  - intros items w evs cb Hrun. exact (run_written _ _ Hrun).
  - intros pre it1 mid it2 post w evs0 cb0 w0 t2 w2 evs cb w'
      Hsame Hloop0 Htab Hpost Hloop.
    assert (Hget : dict_get cb (sheet it2) = Some t2).
    { pose proof Hloop as Hl.
      replace (pre ++ it1 :: mid ++ it2 :: post)
        with ((pre ++ it1 :: mid) ++ it2 :: post) in Hl
        by (rewrite <- app_assoc; reflexivity).
      rewrite loop_app, Hloop0, loop_cons in Hl.
      destruct (tabulated_body cb0 Htab) as [content Hbody].
      rewrite Hbody in Hl.
      destruct (loop post (dict_set cb0 (sheet it2) t2) w2)
        as [evs1 t] eqn:Hrest.
      injection Hl as _ ->.
      transitivity (dict_get (dict_set cb0 (sheet it2) t2) (sheet it2));
        [exact (loop_get_other _ _ _ Hrest Hpost)
        | apply dict_get_set_same]. }
    unfold sheet, slice_to in Hget. rewrite Hsame. split; [exact Hget|].
    apply NoDup_count_occ_one.
    + destruct (loop_keys _ _ _ Hloop) as [Hnd _]. apply Hnd. constructor.
    + eapply dict_get_keys; eauto.
  - intros it1 it2 w t1 w1 t2 w2 Hsame H1 H2.
    destruct (tabulated_body [] H1) as [c1 Hb1].
    destruct (tabulated_body (dict_set [] (sheet it1) t1) H2) as [c2 Hb2].
    assert (Hloop : loop [it1; it2] [] w
                    = (seen it1 c1 ++ seen it2 c2 ++ [],
                       Next [(firstn 31 (name it1), t2)] w2)).
    { rewrite loop_cons, Hb1, loop_cons, Hb2.
      cbn [for_items dict_set]. unfold sheet, slice_to.
      rewrite Hsame, str_eqb_refl. reflexivity. }
    split; [now rewrite Hloop|].
    intros Hw. rewrite run_cases by discriminate. rewrite Hloop, Hw.
    reflexivity.
Qed.
End LoopFacts.

(** ** The table of a document *)

(** C9. The table is a function of the payload alone: each payload has one
    table, which [build_rows] returns, which the theme loop adds to whatever
    rows it is given, and which the loop of [main] stores for any document,
    in any world, with any codebook built so far and any service, whenever
    the answer parses to that payload. *)
Theorem build_rows_deterministic (p : CodingPayload) :
  exists table : DataFrame,
    build_rows (payload_json p) = Ok table
    /\ (forall df_rows,
           themes_loop (map block_json p) df_rows = Ok (df_rows ++ table))
    /\ (forall (World : Type)
               (read_docx_file_content analyze_document : str -> World -> str * World)
               (json_loads : str -> result json)
               (it : item) (cb : Codebook) (w w' : World)
               (content analysis : str),
           answered read_docx_file_content analyze_document
                    it w content analysis w' ->
           parse_response json_loads analysis = Ok (payload_json p) ->
           loop_body read_docx_file_content analyze_document json_loads it cb w
           = (seen it content,
              Next (dict_set cb (slice_to 31 (name it)) table) w')).
Proof.
  exists (List.concat (map block_table p)).
  split; [apply (themes_loop_payload p [])|].
  split; [apply themes_loop_payload|].
  intros World read analyze loads it cb w w' content analysis Ha Hp.
  eapply body_stored; eauto.
  apply (themes_loop_payload p []).
Qed.

Lemma absent_or_iterable_default (members : dict json) (key : str) :
  absent_or_iterable members key ->
  exists l, py_iter (dict_get_default members key (JArr [])) = Ok l.
Proof.
  unfold absent_or_iterable, dict_get_default.
  destruct (dict_get members key); [auto|]. intros _. now exists [].
Qed.

(** C10, as amended. A parsed object without the key themes gives the
    empty table, which the loop of [main] stores before it goes on; a theme
    block without the key theme gets the empty string as its theme; a theme
    block without the key codages, or without the key verbatims, adds no row
    and raises nothing when the other of the two is missing as well or is
    something [zip] can iterate. *)
Theorem missing_keys_take_defaults :
  (forall members : dict json,
      dict_get members (py "themes") = None ->
      build_rows (JObj members) = Ok [])
  /\ (forall (World : Type)
             (read_docx_file_content analyze_document : str -> World -> str * World)
             (json_loads : str -> result json)
             (it : item) (cb : Codebook) (w w' : World)
             (content analysis : str) (members : dict json),
         answered read_docx_file_content analyze_document
                  it w content analysis w' ->
         parse_response json_loads analysis = Ok (JObj members) ->
         dict_get members (py "themes") = None ->
         loop_body read_docx_file_content analyze_document json_loads it cb w
         = (seen it content, Next (dict_set cb (slice_to 31 (name it)) []) w'))
  /\ (forall (members : dict json) (df_rows : DataFrame),
         dict_get members (py "theme") = None ->
         theme_rows (JObj members) df_rows =
         (cs <- py_iter (dict_get_default members (py "codages") (JArr [])) ;;
          vs <- py_iter (dict_get_default members (py "verbatims") (JArr [])) ;;
          Ok (df_rows ++ rows_of (JStr []) (zip cs vs))))
  /\ (forall (members : dict json) (df_rows : DataFrame),
         dict_get members (py "codages") = None ->
         absent_or_iterable members (py "verbatims") ->
         theme_rows (JObj members) df_rows = Ok df_rows)
  /\ (forall (members : dict json) (df_rows : DataFrame),
         dict_get members (py "verbatims") = None ->
         absent_or_iterable members (py "codages") ->
         theme_rows (JObj members) df_rows = Ok df_rows).
Proof.
  assert (Hthemes : forall members : dict json,
             dict_get members (py "themes") = None ->
             build_rows (JObj members) = Ok []).
  { intros members H. unfold build_rows, py_get, dict_get_default.
    rewrite H. reflexivity. }
  split; [exact Hthemes|]. split; [|split; [|split]].
  - intros World read analyze loads it cb w w' content analysis members
      Ha Hp Hnone.
    eapply body_stored; eauto.
  - intros members df_rows H. rewrite theme_rows_obj.
    unfold dict_get_default at 3. rewrite H. reflexivity.
  - intros members df_rows H Hv. rewrite theme_rows_obj.
    unfold dict_get_default at 1. rewrite H. cbn [py_iter bind].
    destruct (absent_or_iterable_default _ _ Hv) as [vs ->].
    cbn [bind zip rows_of map]. now rewrite app_nil_r.
  - intros members df_rows H Hc. rewrite theme_rows_obj.
    destruct (absent_or_iterable_default _ _ Hc) as [cs ->].
    unfold dict_get_default at 1. rewrite H. cbn [py_iter bind].
    rewrite zip_nil_r. cbn [rows_of map]. now rewrite app_nil_r.
Qed.

(** ** From the answer to the table *)

(** C6. The [try] block gives [extract_json] the answer as the service
    returned it and [clean_json_string] only the span that comes out, so
    what precedes the first opening brace and what follows the last closing
    brace never reaches the sanitizer or the decoder, and an answer without
    a span reaches neither.  The answer of the end-to-end example parses to
    the payload with theme T, coding A and verbatim quote one, and its table
    is the one row (T, A, quote one), which the loop stores. *)
Theorem extract_then_clean :
  (forall (json_loads : str -> result json) (analysis : str),
      parse_response json_loads analysis
      = (span <- extract_json analysis ;;
         json_loads (clean_json_string span)))
  /\ (forall (json_loads : str -> result json) (pre mid post : str),
         ~ In LBRACE pre -> ~ In RBRACE post ->
         parse_response json_loads (pre ++ LBRACE :: mid ++ RBRACE :: post)
         = json_loads (clean_json_string (LBRACE :: mid ++ [RBRACE])))
  /\ (forall (json_loads : str -> result json) (analysis : str) (e : exn),
         extract_json analysis = Raise e ->
         parse_response json_loads analysis = Raise e)
  /\ parse_response Json.loads example_response
     = Ok (payload_json [mk_block (py "T") [py "A"] [py "quote one"]])
  /\ (data <- parse_response Json.loads example_response ;; build_rows data)
     = Ok example_table
  /\ (forall (World : Type)
             (read_docx_file_content analyze_document : str -> World -> str * World)
             (it : item) (cb : Codebook) (w w' : World) (content : str),
         answered read_docx_file_content analyze_document
                  it w content example_response w' ->
         loop_body read_docx_file_content analyze_document Json.loads it cb w
         = (seen it content,
            Next (dict_set cb (slice_to 31 (name it)) example_table) w')).
Proof.
  split; [reflexivity|]. split; [|split; [|split; [|split]]].
  - intros loads pre mid post Hpre Hpost. unfold parse_response, extract_json.
    now rewrite re_search_span.
  - intros loads analysis e H. unfold parse_response. now rewrite H.
  - vm_compute. reflexivity.
  - vm_compute. reflexivity.
  - intros World read analyze it cb w w' content Ha.
    eapply body_stored; [exact Ha | |].
    + vm_compute. reflexivity.
    + vm_compute. reflexivity.
Qed.

(** ** The statements at concrete inputs *)

Lemma clean_json_string_spec_witness :
  nth_error (clean_json_string [LF; BACKSLASH; LF; LF]) 3 = Some SPACE
  /\ (nth_error (clean_json_string [LF; BACKSLASH; LF; LF]) 1 = Some BACKSLASH
      /\ nth_error (clean_json_string [LF; BACKSLASH; LF; LF]) 2 = Some LF)
  /\ clean_json_string (py "a\nb") = py "a\nb".
Proof.
  split; [|split].
  - apply (proj1 (proj2 (clean_json_string_spec [LF; BACKSLASH; LF; LF])) 3).
    split; [reflexivity|].
    intros (j & E & H). injection E as <-. discriminate H.
  - apply (proj1 (proj2 (proj2 (proj2
             (clean_json_string_spec [LF; BACKSLASH; LF; LF])))) 1);
      reflexivity.
  - apply (proj2 (proj2 (proj2 (proj2 (clean_json_string_spec (py "a\nb")))))).
    intros i [H _].
    do 4 (destruct i as [|i]; [discriminate H|]). destruct i; discriminate H.
Defined.

Lemma extract_json_first_to_last_witness :
  exists pre mid post,
    py "a{b}c{d}e}f{" = pre ++ LBRACE :: mid ++ RBRACE :: post
    /\ ~ In LBRACE pre /\ ~ In RBRACE post
    /\ extract_json (py "a{b}c{d}e}f{") = Ok (LBRACE :: mid ++ [RBRACE]).
Proof.
  apply (proj1 (proj2 extract_json_first_to_last) (py "a{b}c{d}e}f{") 5 7).
  repeat split. repeat constructor.
Defined.

Lemma extract_json_fails_iff_witness :
  extract_json (py "} no object here") = Raise (ValueError no_json_message)
  /\ exists span, extract_json (py "x {} y") = Ok span.
Proof.
  split.
  - apply (proj1 (proj2 (extract_json_fails_iff (py "} no object here")))).
    simpl. intuition discriminate.
  - apply (proj2 (proj2 (extract_json_fails_iff (py "x {} y")))).
    exists 2, 3. repeat split. repeat constructor.
Defined.

Lemma answered_demo (script : list str) (it : item) (w : nat) :
  forallb isspace (fst (demo_read (id it) w)) = false ->
  answered demo_read (demo_analyze script) it w
           (fst (demo_read (id it) w)) (nth w script []) (S w).
Proof. intros H. exists w. repeat split. exact H. Qed.

Lemma parse_failure_aborts_run_witness :
  main demo_read
       (demo_analyze [example_response; trailing_comma; example_response])
       Json.loads demo_writer ([doc1] ++ doc2 :: [doc3]) 0
  = (seen doc1 (py "Entretien id1") ++ seen doc2 (py "Entretien id2")
       ++ [PrintParseError JSONDecodeError; PrintRaw trailing_comma],
     ParseAbort trailing_comma).
Proof.
  refine (proj1 (@parse_failure_aborts_run nat demo_read
                   (demo_analyze [example_response; trailing_comma;
                                  example_response])
                   Json.loads demo_writer [doc1] doc2 [doc3] 0
                   (seen doc1 (py "Entretien id1"))
                   [(slice_to 31 long_name, example_table)] 1
                   (py "Entretien id2") trailing_comma 2 JSONDecodeError
                   _ _ _)).
  - vm_compute. reflexivity.
  - exact (@answered_demo
             [example_response; trailing_comma; example_response] doc2 1
             eq_refl).
  - right. exists (py "{" ++ quoted (py "themes") ++ py ":[],}").
    split; vm_compute; reflexivity.
Defined.

Lemma blank_document_skipped_witness :
  loop_body demo_read (demo_analyze [example_response; other_response])
            Json.loads blank_doc
            [(slice_to 31 long_name, example_table)] 1
  = (skipped blank_doc, Next [(slice_to 31 long_name, example_table)] 1)
  /\ for_items demo_read (demo_analyze [example_response; other_response])
               Json.loads ([doc1] ++ blank_doc :: [doc3]) [] 0
     = (let (evs', t) :=
          for_items demo_read (demo_analyze [example_response; other_response])
                    Json.loads [doc3]
                    [(slice_to 31 long_name, example_table)] 1 in
        (seen doc1 (py "Entretien id1") ++ skipped blank_doc ++ evs', t)).
Proof.
  refine (proj1 (@blank_document_skipped nat demo_read
                   (demo_analyze [example_response; other_response])
                   Json.loads demo_writer)
                [doc1] blank_doc [doc3] 0 (seen doc1 (py "Entretien id1"))
                [(slice_to 31 long_name, example_table)] 1 1 _ _).
  - vm_compute. reflexivity.
  - exists [SPACE; LF; SPACE]. split; reflexivity.
Defined.

Lemma tabulated_demo (script : list str) (it : item) (w : nat)
    (data : json) (table : DataFrame) :
  forallb isspace (fst (demo_read (id it) w)) = false ->
  parse_response Json.loads (nth w script []) = Ok data ->
  build_rows data = Ok table ->
  tabulated demo_read (demo_analyze script) Json.loads it w table (S w).
Proof.
  intros H Hp Hb. exists (fst (demo_read (id it) w)), (nth w script []), data.
  split; [now apply answered_demo | now split].
Qed.

Lemma codebook_keys_last_write_wins_witness :
  snd (for_items demo_read (demo_analyze [example_response; other_response])
                 Json.loads [doc1; doc2] [] 0)
  = Next [(py "Interview 1 - a very long title", other_table)] 2
  /\ snd (main demo_read (demo_analyze [example_response; other_response])
               Json.loads demo_writer [doc1; doc2] 0)
     = Written [(py "Interview 1 - a very long title", other_table)].
Proof.
  destruct (proj2 (proj2 (proj2 (@codebook_keys_last_write_wins nat demo_read
                                   (demo_analyze [example_response; other_response])
                                   Json.loads demo_writer)))
                  doc1 doc2 0 example_table 1 other_table 2) as [Hloop Hrun].
  - reflexivity.
  - apply (@tabulated_demo [example_response; other_response] doc1 0
             (payload_json [mk_block (py "T") [py "A"] [py "quote one"]]));
      vm_compute; reflexivity.
  - apply (@tabulated_demo [example_response; other_response] doc2 1
             (payload_json [mk_block (py "U") [py "B"] [py "quote two"]]));
      vm_compute; reflexivity.
  - split; [exact Hloop | apply Hrun; reflexivity].
Defined.

Lemma build_rows_deterministic_witness :
  exists table : DataFrame,
    build_rows (payload_json [mk_block (py "T") [py "A"] [py "quote one"]])
    = Ok table
    /\ loop_body demo_read (demo_analyze [other_response; example_response])
                 Json.loads doc3 [(slice_to 31 long_name, other_table)] 1
       = (seen doc3 (py "Entretien id3"),
          Next (dict_set [(slice_to 31 long_name, other_table)]
                         (slice_to 31 (name doc3)) table) 2).
Proof.
  destruct (build_rows_deterministic
              [mk_block (py "T") [py "A"] [py "quote one"]])
    as (table & Hbuild & _ & Hrun).
  exists table. split; [exact Hbuild|].
  apply (Hrun nat demo_read
              (demo_analyze [other_response; example_response]) Json.loads
              doc3 [(slice_to 31 long_name, other_table)] 1 2
              (py "Entretien id3") example_response).
  - exact (@answered_demo [other_response; example_response] doc3 1
             eq_refl).
  - vm_compute. reflexivity.
Defined.

Lemma extract_then_clean_witness :
  loop_body demo_read (demo_analyze [example_response]) Json.loads doc1 [] 0
  = (seen doc1 (py "Entretien id1"),
     Next (dict_set [] (slice_to 31 (name doc1)) example_table) 1).
Proof.
  apply (proj2 (proj2 (proj2 (proj2 (proj2 extract_then_clean))))
           nat demo_read (demo_analyze [example_response]) doc1 [] 0 1
           (py "Entretien id1")).
  exact (@answered_demo [example_response] doc1 0 eq_refl).
Defined.

Lemma missing_keys_take_defaults_witness :
  theme_rows (JObj [(py "theme", JStr (py "T"));
                    (py "verbatims", JArr [JStr (py "v1")])])
             example_table
  = Ok example_table
  /\ build_rows (JObj [(py "topics", JArr [])]) = Ok [].
Proof.
  split.
  - apply (proj1 (proj2 (proj2 (proj2 missing_keys_take_defaults)))).
    + reflexivity.
    + simpl. eexists. reflexivity.
  - apply (proj1 missing_keys_take_defaults). reflexivity.
Defined.

(** C10, as stated, fails: the object below parses, its one theme block has
    no codages key, and the block does not pass as a block without rows:
    [zip] is given the number under verbatims and raises [TypeError], which
    nothing in [main] catches, so the run ends on it with no workbook. *)
Lemma missing_codages_counterexample :
  Json.loads number_for_verbatims
  = Ok (JObj [(py "themes", JArr [JObj [(py "verbatims", JInt 5)]])])
  /\ dict_get [(py "verbatims", JInt 5)] (py "codages") = None
  /\ theme_rows (JObj [(py "verbatims", JInt 5)]) [] = Raise TypeError
  /\ build_rows (JObj [(py "themes", JArr [JObj [(py "verbatims", JInt 5)]])])
     = Raise TypeError
  /\ main demo_read (demo_analyze [number_for_verbatims]) Json.loads
          demo_writer [doc1] 0
     = (seen doc1 (py "Entretien id1"), Uncaught TypeError).
Proof. repeat split; vm_compute; reflexivity. Qed.

(** * Further properties *)

(** ** The two string helpers together *)

Lemma last_char_cons (prev : option char) (c : char) (s : str) :
  last_char prev (c :: s) = last_char (Some c) s.
Proof.
  unfold last_char. simpl. destruct (rev s) as [|d r] eqn:E; simpl.
  - reflexivity.
  - reflexivity.
Qed.

Lemma sub_newlines_app (prev : option char) (a b : str) :
  sub_newlines prev (a ++ b)
  = sub_newlines prev a ++ sub_newlines (last_char prev a) b.
Proof.
  revert prev; induction a as [|c a IH]; intros prev; simpl.
  - reflexivity.
  - rewrite IH, last_char_cons. reflexivity.
Qed.

Lemma sub_newlines_other (x : char) (prev : option char) (s : str) :
  x <> SPACE -> In x (sub_newlines prev s) -> In x s.
Proof.
  intros Hx. revert prev; induction s as [|c s IH]; intros prev; simpl;
    [tauto|].
  intros [H|H]; [|right; eapply IH; eauto].
  destruct (N.eqb c LF && negb (preceded_by_backslash prev));
    [congruence | now left].
Qed.

Lemma sub_newlines_head (prev : option char) (c : char) (s : str) :
  c <> LF ->
  sub_newlines prev (c :: s) = c :: sub_newlines (Some c) s.
Proof.
  intros Hc. simpl. apply N.eqb_neq in Hc. now rewrite Hc.
Qed.

Lemma re_search_some_split (text m : str) :
  re_search text = Some m ->
  exists pre mid post,
    text = pre ++ LBRACE :: mid ++ RBRACE :: post
    /\ ~ In LBRACE pre /\ ~ In RBRACE post
    /\ m = LBRACE :: mid ++ [RBRACE].
Proof.
  intros H. destruct (re_search_some_pair _ H) as (i & j & Hp).
  destruct (brace_pair_split Hp) as (pre & mid & post & -> & Hpre & Hpost).
  exists pre, mid, post. repeat split; auto.
  rewrite re_search_span in H by assumption. congruence.
Qed.

Lemma clean_nth_newline (s : str) (i : nat) :
  nth_error (clean_json_string s) i = Some LF ->
  nth_error s i = Some LF /\ escaped_at s i.
Proof.
  unfold clean_json_string. rewrite sub_newlines_nth.
  destruct (nth_error s i) as [c|] eqn:Ec; simpl; [|discriminate].
  destruct (N.eqb c LF) eqn:Elf; simpl.
  - apply N.eqb_eq in Elf. subst c.
    destruct (preceded_by_backslash (before None s i)) eqn:E; simpl.
    + intros _. split; [reflexivity | now apply escaped_at_before].
    + discriminate.
  - intros H. injection H as ->. rewrite N.eqb_refl in Elf. discriminate.
Qed.

(** X1. What [clean_json_string] returns has no newline left but those
    right after a backslash, and cleaning it again changes nothing. *)
Theorem clean_json_string_idempotent (s : str) :
  (forall i, nth_error (clean_json_string s) i = Some LF ->
             escaped_at (clean_json_string s) i)
  /\ clean_json_string (clean_json_string s) = clean_json_string s.
Proof.
  assert (H : forall i, nth_error (clean_json_string s) i = Some LF ->
                        escaped_at (clean_json_string s) i).
  { intros i Hi. destruct (clean_nth_newline _ _ Hi) as [_ (j & -> & Hj)].
    exists j. split; [reflexivity|].
    rewrite clean_nth_other; [exact Hj|].
    intros [Hlf _]. rewrite Hj in Hlf. discriminate. }
  split; [exact H|].
  apply nth_error_ext. intros i. apply clean_nth_other.
  intros [Hlf Hesc]. apply Hesc. now apply H.
Qed.

Lemma clean_span (prev : option char) (mid : str) :
  sub_newlines prev (LBRACE :: mid ++ [RBRACE])
  = LBRACE :: sub_newlines (Some LBRACE) mid ++ [RBRACE].
Proof.
  rewrite sub_newlines_head by discriminate. f_equal.
  rewrite sub_newlines_app. reflexivity.
Qed.

(** X2. Sanitizing does not move the span: on every text, extracting from
    the sanitized text gives the sanitized span of the text, and fails
    exactly when extracting from the text itself fails. *)
Theorem extract_json_clean_commute (text : str) :
  extract_json (clean_json_string text)
  = match extract_json text with
    | Ok span => Ok (clean_json_string span)
    | Raise e => Raise e
    end.
Proof.
  unfold extract_json. destruct (re_search text) as [m|] eqn:E.
  - destruct (re_search_some_split _ E)
      as (pre & mid & post & -> & Hpre & Hpost & ->).
    unfold clean_json_string at 1.
    rewrite sub_newlines_app.
    replace (LBRACE :: mid ++ RBRACE :: post)
      with ((LBRACE :: mid ++ [RBRACE]) ++ post)
      by (simpl; rewrite <- app_assoc; reflexivity).
    rewrite sub_newlines_app, clean_span.
    cbn [app]. rewrite <- app_assoc. cbn [app].
    rewrite re_search_span.
    + unfold clean_json_string. now rewrite clean_span.
    + intros H. apply Hpre. eapply sub_newlines_other; eauto. discriminate.
    + intros H. apply Hpost. eapply sub_newlines_other; eauto. discriminate.
  - destruct (re_search (clean_json_string text)) as [m|] eqn:E';
      [|reflexivity].
    exfalso. destruct (re_search_some_pair _ E') as (i & j & Hij & Hi & Hj).
    assert (Hkeep : forall k x, x <> SPACE ->
               nth_error (clean_json_string text) k = Some x ->
               nth_error text k = Some x).
    { intros k x Hx. unfold clean_json_string. rewrite sub_newlines_nth.
      destruct (nth_error text k) as [c|]; simpl; [|discriminate].
      destruct (N.eqb c LF && _); intros H; injection H as H; congruence. }
    assert (Hp : brace_pair text i j).
    { split; [exact Hij|]. split; apply Hkeep; auto; discriminate. }
    destruct (brace_pair_split Hp) as (pre & mid & post & -> & Hpre & Hpost).
    rewrite re_search_span in E by assumption. discriminate.
Qed.

(** X3. Whatever [extract_json] returns is a piece of the text in one
    block, with no opening brace before it and no closing brace after it;
    it starts with an opening and ends with a closing brace, so has at
    least two characters; and extracting from it returns it unchanged. *)
Theorem extract_json_span_shape (text span : str) :
  extract_json text = Ok span ->
  (exists pre mid post,
      text = pre ++ span ++ post
      /\ span = LBRACE :: mid ++ [RBRACE]
      /\ ~ In LBRACE pre /\ ~ In RBRACE post)
  /\ 2 <= List.length span
  /\ extract_json span = Ok span.
Proof.
  unfold extract_json. destruct (re_search text) as [m|] eqn:E;
    [|discriminate].
  intros H. injection H as <-.
  destruct (re_search_some_split _ E)
    as (pre & mid & post & -> & Hpre & Hpost & ->).
  split; [|split].
  - exists pre, mid, post. repeat split; auto.
    simpl. now rewrite <- app_assoc.
  - simpl. rewrite length_app. simpl. lia.
  - pose proof (@re_search_span [] mid []) as Hs. cbn [app] in Hs.
    rewrite Hs by (simpl; tauto). reflexivity.
Qed.

Lemma extract_json_span_shape_witness :
  2 <= List.length (py "{b}c{d}e}")
  /\ extract_json (py "{b}c{d}e}") = Ok (py "{b}c{d}e}").
Proof.
  apply (proj2 (@extract_json_span_shape (py "a{b}c{d}e}f{") (py "{b}c{d}e}")
                  eq_refl)).
Defined.

(** ** Row construction on any parsed value *)

Lemma py_iter_cases (v : json) :
  (exists l, py_iter v = Ok l) \/ py_iter v = Raise TypeError.
Proof. destruct v; simpl; eauto. Qed.

Lemma theme_rows_ok (t : json) (df_rows : DataFrame) :
  block_ok t ->
  exists b, t = JObj b
    /\ theme_rows t df_rows
       = Ok (df_rows ++ rows_of (theme_of b)
                          (zip (items_of (codages_of b))
                               (items_of (verbatims_of b)))).
Proof.
  destruct t as [| | | | | |b]; try contradiction.
  intros [[cs Hc] [vs Hv]]. exists b. split; [reflexivity|].
  rewrite theme_rows_obj. unfold items_of, codages_of, verbatims_of in *.
  rewrite Hc, Hv. reflexivity.
Qed.

Lemma theme_rows_error (t : json) (df_rows : DataFrame) :
  ~ block_ok t -> theme_rows t df_rows = Raise (block_error t).
Proof.
  destruct t as [| | | | | |b]; try reflexivity.
  intros H. rewrite theme_rows_obj. simpl.
  destruct (py_iter_cases (dict_get_default b (py "codages") (JArr [])))
    as [[cs Hc]| ->]; [|reflexivity].
  rewrite Hc. cbn [bind].
  destruct (py_iter_cases (dict_get_default b (py "verbatims") (JArr [])))
    as [[vs Hv]| ->]; [|reflexivity].
  exfalso. apply H. split; [now exists cs | now exists vs].
Qed.

Lemma block_ok_dec (t : json) : block_ok t \/ ~ block_ok t.
Proof.
  destruct t as [| | | | | |b]; simpl; try (right; tauto).
  unfold iterable.
  destruct (py_iter_cases (codages_of b)) as [Hc|Hc];
    destruct (py_iter_cases (verbatims_of b)) as [Hv|Hv];
    try (left; tauto); right; intros [[l H] [l' H']]; congruence.
Qed.

Lemma themes_loop_ok (ts : list json) (df_rows : DataFrame) :
  Forall block_ok ts ->
  exists added,
    themes_loop ts df_rows = Ok (df_rows ++ added)
    /\ List.length added = list_sum (map pair_count ts)
    /\ forall r, In r added ->
                 exists b i, In (JObj b) ts /\ row_from b i r.
Proof.
  intros H. revert df_rows. induction H as [|t ts Ht Hts IH]; intros df_rows.
  - exists []. simpl. rewrite app_nil_r. repeat split. intros r [].
  - destruct (@theme_rows_ok t df_rows Ht) as (b & -> & Hrows).
    cbn [themes_loop]. rewrite Hrows. cbn [bind].
    destruct (IH (df_rows ++ rows_of (theme_of b)
                    (zip (items_of (codages_of b))
                         (items_of (verbatims_of b)))))
      as (added & Heq & Hlen & Hfrom).
    exists (rows_of (theme_of b)
              (zip (items_of (codages_of b)) (items_of (verbatims_of b)))
            ++ added).
    split; [now rewrite Heq, app_assoc|]. split.
    + rewrite length_app, Hlen. cbn [map list_sum pair_count].
      unfold rows_of. now rewrite length_map, zip_length.
    + intros r Hin. apply in_app_or in Hin as [Hin|Hin].
      * unfold rows_of in Hin. apply in_map_iff in Hin as ([c v] & <- & Hin).
        apply In_nth_error in Hin as [i Hi].
        exists b, i. split; [now left|].
        assert (Hcv : nth_error (items_of (codages_of b)) i = Some c
                      /\ nth_error (items_of (verbatims_of b)) i = Some v).
        { clear - Hi. revert Hi.
          generalize (items_of (codages_of b)), (items_of (verbatims_of b)).
          intros cs. revert i. induction cs as [|x cs IHc]; intros i vs.
          - destruct i; discriminate.
          - destruct vs as [|y vs]; [destruct i; discriminate|].
            destruct i as [|i]; simpl.
            + intros H. now injection H as -> ->.
            + apply IHc. }
        destruct Hcv. repeat split; assumption.
      * destruct (Hfrom r Hin) as (b' & i & Hb & Hr).
        exists b', i. split; [now right | exact Hr].
Qed.

Lemma themes_loop_first_error (good : list json) (bad : json)
    (rest : list json) (df_rows : DataFrame) :
  Forall block_ok good -> ~ block_ok bad ->
  themes_loop (good ++ bad :: rest) df_rows = Raise (block_error bad).
Proof.
  intros Hgood Hbad. revert df_rows.
  induction Hgood as [|t ts Ht Hts IH]; intros df_rows.
  - cbn [app themes_loop]. now rewrite theme_rows_error.
  - destruct (@theme_rows_ok t df_rows Ht) as (b & -> & Hrows).
    cbn [app themes_loop]. rewrite Hrows. cbn [bind]. apply IH.
Qed.

Lemma Forall_or_first (ts : list json) :
  Forall block_ok ts
  \/ exists good bad rest,
       ts = good ++ bad :: rest /\ Forall block_ok good /\ ~ block_ok bad.
Proof.
  induction ts as [|t ts IH]; [left; constructor|].
  destruct (block_ok_dec t) as [Ht|Ht].
  - destruct IH as [IH|(good & bad & rest & -> & Hg & Hb)].
    + left. now constructor.
    + right. exists (t :: good), bad, rest. repeat split; auto.
  - right. exists [], t, ts. repeat split; auto.
Qed.

Lemma build_rows_obj (m : dict json) :
  build_rows (JObj m) = (ts <- py_iter (themes_of m) ;; themes_loop ts []).
Proof. reflexivity. Qed.

Lemma build_rows_ok_inv (m : dict json) (rows : DataFrame) :
  build_rows (JObj m) = Ok rows ->
  exists ts, py_iter (themes_of m) = Ok ts
             /\ Forall block_ok ts /\ themes_loop ts [] = Ok rows.
Proof.
  rewrite build_rows_obj.
  destruct (py_iter_cases (themes_of m)) as [[ts Hit]|Hit]; rewrite Hit;
    cbn [bind]; [|discriminate].
  intros H. exists ts. split; [reflexivity|]. split; [|exact H].
  destruct (Forall_or_first ts)
    as [Hall|(good & bad & rest & -> & Hgood & Hbad)]; [exact Hall|].
  rewrite themes_loop_first_error in H by assumption. discriminate.
Qed.

(** X4. Building the rows succeeds exactly when the parsed value is a
    [dict], the value under themes (an empty list when missing) can be
    iterated, and every theme is a [dict] whose codages and verbatims can be
    iterated.  Otherwise the first theme that is not decides: it raises
    [AttributeError] when it is not a [dict] and [TypeError] when it is,
    whatever the themes after it are, and no row is returned.  Nothing
    else is ever raised. *)
Theorem build_rows_succeeds_iff (data : json) :
  ((exists rows, build_rows data = Ok rows)
   <-> exists m, data = JObj m
                 /\ iterable (themes_of m)
                 /\ Forall block_ok (items_of (themes_of m)))
  /\ (forall e, build_rows data = Raise e ->
                e = AttributeError \/ e = TypeError)
  /\ (forall m good bad rest,
         data = JObj m ->
         py_iter (themes_of m) = Ok (good ++ bad :: rest) ->
         Forall block_ok good -> ~ block_ok bad ->
         build_rows data = Raise (block_error bad)).
Proof.
  assert (Hfirst : forall m good bad rest,
             data = JObj m ->
             py_iter (themes_of m) = Ok (good ++ bad :: rest) ->
             Forall block_ok good -> ~ block_ok bad ->
             build_rows data = Raise (block_error bad)).
  { intros m good bad rest -> Hit Hgood Hbad.
    unfold build_rows. cbn [py_get bind]. fold (themes_of m).
    rewrite Hit. cbn [bind]. now apply themes_loop_first_error. }
  assert (Hcases : (exists m, data = JObj m
                      /\ iterable (themes_of m)
                      /\ Forall block_ok (items_of (themes_of m))
                      /\ exists rows, build_rows data = Ok rows)
                   \/ build_rows data = Raise AttributeError
                   \/ build_rows data = Raise TypeError).
  { destruct data as [| | | | | |m]; try (right; left; reflexivity).
    destruct (py_iter_cases (themes_of m)) as [[ts Hit]|Hit].
    - destruct (Forall_or_first ts)
        as [Hall|(good & bad & rest & -> & Hgood & Hbad)].
      + left. exists m. split; [reflexivity|]. split; [now exists ts|].
        unfold items_of. rewrite Hit. split; [exact Hall|].
        destruct (@themes_loop_ok _ [] Hall) as (added & Heq & _).
        exists added. unfold build_rows. cbn [py_get bind].
        fold (themes_of m). rewrite Hit. exact Heq.
      + right. rewrite (Hfirst m good bad rest eq_refl Hit Hgood Hbad).
        destruct bad; simpl; auto.
    - right. right. unfold build_rows. cbn [py_get bind].
      fold (themes_of m). now rewrite Hit. }
  split; [|split; [|exact Hfirst]].
  - split.
    + intros [rows Hrows].
      destruct Hcases as [(m & -> & Hit & Hall & _)|[H|H]]; try congruence.
      now exists m.
    + intros (m & -> & [ts Hit] & Hall).
      unfold items_of in Hall. rewrite Hit in Hall.
      destruct (@themes_loop_ok _ [] Hall) as (added & Heq & _).
      exists added. unfold build_rows. cbn [py_get bind].
      fold (themes_of m). rewrite Hit. exact Heq.
  - intros e He.
    destruct Hcases as [(m & _ & _ & _ & rows & Hrows)|[H|H]]; try congruence.
    + left. congruence.
    + right. congruence.
Qed.

Lemma build_rows_succeeds_iff_witness :
  build_rows
    (JObj [(py "themes",
            JArr [block_json (mk_block (py "T") [py "A"] [py "q"]);
                  JStr (py "oops");
                  JInt 3])])
  = Raise AttributeError.
Proof.
  refine (proj2 (proj2 (build_rows_succeeds_iff _))
            [(py "themes",
              JArr [block_json (mk_block (py "T") [py "A"] [py "q"]);
                    JStr (py "oops");
                    JInt 3])]
            [block_json (mk_block (py "T") [py "A"] [py "q"])]
            (JStr (py "oops")) [JInt 3] eq_refl eq_refl _ _).
  - constructor; [|constructor]. split; eexists; reflexivity.
  - intros H. exact H.
Defined.

(** X5. When the rows are built, there are as many as the themes have
    pairs (for each theme the length of the shorter of its codages and
    verbatims), and every row comes from one theme block of the parsed
    object: its theme is that block's (the empty string when it has none)
    and its coding and verbatim stand at one and the same index of the
    block's codages and verbatims. *)
Theorem build_rows_rows_from_blocks (m : dict json) (rows : DataFrame) :
  build_rows (JObj m) = Ok rows ->
  List.length rows = list_sum (map pair_count (items_of (themes_of m)))
  /\ forall r, In r rows ->
               exists b i, In (JObj b) (items_of (themes_of m))
                           /\ row_from b i r.
Proof.
  intros H. destruct (build_rows_ok_inv _ H) as (ts & Hit & Hall & Hloop).
  unfold items_of. rewrite Hit.
  destruct (@themes_loop_ok _ [] Hall) as (added & Heq & Hlen & Hfrom).
  rewrite Heq in Hloop. injection Hloop as <-. now split.
Qed.

Lemma build_rows_rows_from_blocks_witness :
  List.length example_table = 1
  /\ forall r, In r example_table ->
               exists b i,
                 In (JObj b)
                    [block_json (mk_block (py "T") [py "A"; py "B"]
                                          [py "quote one"])]
                 /\ row_from b i r.
Proof.
  apply (@build_rows_rows_from_blocks
           [(py "themes",
             JArr [block_json (mk_block (py "T") [py "A"; py "B"]
                                        [py "quote one"])])]
           example_table eq_refl).
Defined.

(** ** Traces of a run *)

Lemma drive_reads_app (a b : list event) :
  drive_reads (a ++ b) = drive_reads a ++ drive_reads b.
Proof. apply flat_map_app. Qed.

Lemma groq_calls_app (a b : list event) :
  groq_calls (a ++ b) = groq_calls a ++ groq_calls b.
Proof. apply flat_map_app. Qed.

Lemma excel_writes_app (a b : list event) :
  excel_writes (a ++ b) = excel_writes a ++ excel_writes b.
Proof. apply flat_map_app. Qed.

Lemma excel_writes_turn (evs : list event) :
  Forall turn_event evs -> excel_writes evs = [].
Proof.
  induction 1 as [|ev evs Hev _ IH]; [reflexivity|].
  destruct ev; simpl in *; try exact IH. contradiction.
Qed.

Lemma dict_set_length (V : Type) (d : dict V) (k : str) (v : V) :
  List.length (dict_set d k v) <= S (List.length d).
Proof.
  induction d as [|[k' v'] d IH]; simpl; [lia|].
  destruct (str_eqb k' k); simpl; lia.
Qed.

Lemma dict_keys_set_order (V : Type) (d : dict V) (k : str) (v : V) :
  dict_keys (dict_set d k v) = add_key (dict_keys d) k.
Proof.
  unfold add_key, dict_keys. induction d as [|[k' v'] d IH]; simpl.
  - reflexivity.
  - assert (E : str_eqb k k' = str_eqb k' k).
    { destruct (str_eqb k' k) eqn:E1.
      - apply str_eqb_eq in E1. subst. apply str_eqb_refl.
      - apply str_eqb_neq. apply str_eqb_neq in E1. congruence. }
    rewrite E. destruct (str_eqb k' k); simpl; [reflexivity|].
    rewrite IH. now destruct (existsb (str_eqb k) (map fst d)).
Qed.

Section RunTraces.
Variable World : Type.
Variable read_docx_file_content : str -> World -> str * World.
Variable analyze_document : str -> World -> str * World.
Variable json_loads : str -> result json.
Variable excel_writer : str -> Codebook -> World -> option exn.

Abbreviation body := (loop_body read_docx_file_content analyze_document json_loads).
Abbreviation loop := (for_items read_docx_file_content analyze_document json_loads).
Abbreviation run :=
  (main read_docx_file_content analyze_document json_loads excel_writer).

(** The shapes a turn can have. *)
Lemma body_shapes it cb w :
  (exists w', body it cb w = (skipped it, Next cb w'))
  \/ (exists content table w',
        body it cb w
        = (seen it content, Next (dict_set cb (sheet it) table) w'))
  \/ (exists content t,
        fst (body it cb w) = seen it content ++ t
        /\ groq_calls t = [] /\ drive_reads t = []
        /\ forall cb' w', snd (body it cb w) <> Next cb' w').
Proof.
  unfold loop_body.
  destruct (read_docx_file_content (id it) w) as [content w1].
  destruct (py_not (strip content)); [left; now exists w1|].
  destruct (analyze_document content w1) as [analysis w2].
  right. destruct (parse_response json_loads analysis) as [data|e].
  - destruct (build_rows data) as [table|e].
    + left. now exists content, table, w2.
    + right. exists content, []. rewrite app_nil_r.
      repeat split. discriminate.
  - right. exists content, [PrintParseError e; PrintRaw analysis].
    repeat split. discriminate.
Qed.

(** The loop, turn by turn: what was read and sent, and the size and the
    key order of the codebook. *)
Lemma loop_trace items cb w :
  let evs := fst (loop items cb w) in
  exists done rest,
    items = done ++ rest
    /\ drive_reads evs = map id done
    /\ List.length (groq_calls evs) <= List.length done
    /\ forall cb' w',
         snd (loop items cb w) = Next cb' w' ->
         rest = []
         /\ List.length cb' <= List.length cb + List.length (groq_calls evs)
         /\ (~ In PrintEmpty evs ->
             dict_keys cb' = fold_left add_key (map sheet items) (dict_keys cb)).
Proof.
  revert cb w; induction items as [|it items IH]; intros cb w.
  - exists [], []. simpl. split; [reflexivity|]. split; [reflexivity|].
    split; [lia|]. intros cb' w' H. injection H as <- _.
    split; [reflexivity|]. split; [lia | reflexivity].
  - cbn zeta. rewrite loop_cons.
    destruct (body_shapes it cb w)
      as [(w1 & Hb)|[(content & table & w1 & Hb)|(content & t & Hev & Hg & Hd & Hstop)]].
    + rewrite Hb. specialize (IH cb w1). cbn zeta in IH.
      destruct (loop items cb w1) as [evs' t'].
      destruct IH as (done & rest & -> & Hr & Hc & Hnext).
      exists (it :: done), rest. cbn [fst snd] in *.
      split; [reflexivity|]. split; [simpl; now rewrite Hr|].
      split; [simpl; lia|].
      intros cb' w' Ht. destruct (Hnext _ _ Ht) as (-> & Hlen & Hkeys).
      split; [reflexivity|]. split; [exact Hlen|].
      intros Hno. exfalso. apply Hno. simpl. auto.
    + rewrite Hb. specialize (IH (dict_set cb (sheet it) table) w1).
      cbn zeta in IH.
      destruct (loop items (dict_set cb (sheet it) table) w1) as [evs' t'].
      destruct IH as (done & rest & -> & Hr & Hc & Hnext).
      exists (it :: done), rest. cbn [fst snd] in *.
      split; [reflexivity|]. split; [simpl; now rewrite Hr|].
      split; [simpl; lia|].
      intros cb' w' Ht. destruct (Hnext _ _ Ht) as (-> & Hlen & Hkeys).
      split; [reflexivity|]. split.
      * pose proof (dict_set_length cb (sheet it) table). simpl. lia.
      * intros Hno. rewrite Hkeys.
        -- cbn [map fold_left]. now rewrite dict_keys_set_order.
        -- intros Hin. apply Hno. simpl. auto.
    + destruct (body it cb w) as [evs0 [cb1 w1|a w1|e w1]] eqn:Hb;
        cbn [fst snd] in *.
      * exfalso. now apply (Hstop cb1 w1).
      * exists [it], items. subst evs0. cbn [fst snd].
        rewrite drive_reads_app, groq_calls_app, Hg, Hd.
        repeat split; try discriminate. simpl. lia.
      * exists [it], items. subst evs0. cbn [fst snd].
        rewrite drive_reads_app, groq_calls_app, Hg, Hd.
        repeat split; try discriminate. simpl. lia.
Qed.

(** The run after its loop: the writer takes the codebook, the writer
    raises, or the loop has stopped before. *)
Lemma run_of_loop (it : item) (items : list item) (w : World) :
  (exists evs cb w',
      loop (it :: items) [] w = (evs, Next cb w')
      /\ excel_writer output_file cb w' = None
      /\ run (it :: items) w
         = (evs ++ [ExcelWrite output_file cb; PrintDone output_file],
            Written cb))
  \/ (exists evs cb w' e,
         loop (it :: items) [] w = (evs, Next cb w')
         /\ excel_writer output_file cb w' = Some e
         /\ run (it :: items) w
            = (evs ++ [ExcelWrite output_file cb], Uncaught e))
  \/ (exists evs t o,
         loop (it :: items) [] w = (evs, t)
         /\ run (it :: items) w = (evs, o)
         /\ (forall cb, o <> Written cb)
         /\ forall cb w', t <> Next cb w').
Proof.
  unfold main.
  destruct (loop (it :: items) [] w) as [evs [cb w'|a w'|e w']].
  - destruct (excel_writer output_file cb w') as [e|] eqn:Ew.
    + right. left. now exists evs, cb, w', e.
    + left. now exists evs, cb, w'.
  - right. right. exists evs, (Return_ a w'), (ParseAbort a).
    repeat split; discriminate.
  - right. right. exists evs, (Propagate e w'), (Uncaught e).
    repeat split; discriminate.
Qed.

(** X6. A run downloads the documents in the order of the listing, each
    at most once and none after the one it stops at: the files read are
    the ids of an initial part of the listing, the whole listing when the
    workbook is written, and the service is called at most once for each
    of them. *)
Theorem run_reads_in_listing_order (items : list item) (w : World) :
  exists done rest,
    items = done ++ rest
    /\ drive_reads (fst (run items w)) = map id done
    /\ List.length (groq_calls (fst (run items w))) <= List.length done
    /\ ((exists cb, snd (run items w) = Written cb) -> rest = []).
Proof.
  destruct items as [|it items].
  - exists [], []. simpl. repeat split; auto.
  - pose proof (loop_trace (it :: items) [] w) as Ht. cbn zeta in Ht.
    destruct (run_of_loop it items w)
      as [(evs & cb & w' & Hl & _ & ->)
         |[(evs & cb & w' & e & Hl & _ & ->)
          |(evs & t & o & Hl & -> & Hno & _)]];
      rewrite Hl in Ht; cbn [fst snd] in *;
      destruct Ht as (done & rest & Hsplit & Hr & Hc & Hnext);
      exists done, rest; (split; [exact Hsplit|]).
    + rewrite drive_reads_app, groq_calls_app, Hr. simpl.
      rewrite !app_nil_r. split; [reflexivity|]. split; [exact Hc|].
      intros _. now destruct (Hnext cb w' eq_refl).
    + rewrite drive_reads_app, groq_calls_app, Hr. simpl.
      rewrite !app_nil_r. split; [reflexivity|]. split; [exact Hc|].
      intros _. now destruct (Hnext cb w' eq_refl).
    + split; [exact Hr|]. split; [exact Hc|].
      intros [cb Hcb]. exfalso. exact (Hno cb Hcb).
Qed.

Lemma print_done_turn (evs : list event) (file : str) :
  Forall turn_event evs -> ~ In (PrintDone file) evs.
Proof.
  intros H Hin. rewrite Forall_forall in H. exact (H _ Hin).
Qed.

(** X7. The writer is called at most once in a run, and only when the loop
    has gone through the whole listing: then right after the loop, for the
    file codebook.xlsx and with the codebook the loop has built.  The run
    ends with its workbook exactly when that call comes back without an
    exception; the closing message is shown then, as the last thing, and
    never otherwise.  When the writer raises, the run ends on its exception
    right after the call.  A run that stops on an answer or on an exception
    of the row construction, or that finds no document, never calls the
    writer. *)
Theorem workbook_written_once (items : list item) (w : World) :
  excel_writes (fst (run items w))
  = match items, loop items [] w with
    | _ :: _, (_, Next cb _) => [(output_file, cb)]
    | _, _ => []
    end
  /\ (forall cb,
         snd (run items w) = Written cb
         <-> items <> []
             /\ exists evs w',
                  loop items [] w = (evs, Next cb w')
                  /\ excel_writer output_file cb w' = None)
  /\ (forall cb,
         snd (run items w) = Written cb ->
         exists evs,
           fst (run items w)
           = evs ++ [ExcelWrite output_file cb; PrintDone output_file]
           /\ excel_writes evs = [])
  /\ (forall evs cb w' e,
         items <> [] ->
         loop items [] w = (evs, Next cb w') ->
         excel_writer output_file cb w' = Some e ->
         run items w = (evs ++ [ExcelWrite output_file cb], Uncaught e))
  /\ ((exists file, In (PrintDone file) (fst (run items w)))
      <-> exists cb, snd (run items w) = Written cb).
Proof.
  destruct items as [|it items].
  { split; [reflexivity|]. split.
    { intros cb. split; [discriminate | intros [H _]; congruence]. }
    split; [discriminate|]. split; [congruence|].
    split; [intros [file [H|[]]]; discriminate | intros [cb H]; discriminate]. }
  pose proof (loop_events read_docx_file_content analyze_document json_loads
                (it :: items) [] w) as Hev.
  destruct (run_of_loop it items w)
    as [(evs & cb & w' & Hl & Hw & Hrun)
       |[(evs & cb & w' & e & Hl & Hw & Hrun)
        |(evs & t & o & Hl & Hrun & Hno & Hnext)]];
    rewrite Hrun, Hl; rewrite Hl in Hev; cbn [fst snd] in *;
    pose proof (excel_writes_turn Hev) as Hx.
  - split; [rewrite excel_writes_app, Hx; reflexivity|]. split.
    { intros cb'. split.
      - intros H. injection H as <-. split; [discriminate|].
        now exists evs, w'.
      - intros (_ & evs' & w'' & H & _). now injection H as _ <- _. }
    split; [intros cb' H; injection H as <-; now exists evs|].
    split.
    { intros evs' cb' w'' e _ H Hw'. injection H as _ <- <-. congruence. }
    split; [intros _; now exists cb|].
    intros _. exists output_file. apply in_or_app. right. right. now left.
  - split; [rewrite excel_writes_app, Hx; reflexivity|]. split.
    { intros cb'. split; [discriminate|].
      intros (_ & evs' & w'' & H & Hw'). injection H as _ <- <-. congruence. }
    split; [discriminate|]. split.
    { intros evs' cb' w'' e' _ H Hw'. injection H as <- <- <-.
      rewrite Hw in Hw'. now injection Hw' as <-. }
    split; [|intros [cb' H]; discriminate].
    intros [file Hin]. exfalso. apply in_app_or in Hin as [Hin|Hin].
    + exact (print_done_turn file Hev Hin).
    + destruct Hin as [H|[]]. discriminate.
  - split.
    { rewrite Hx. destruct t as [cb w'|a w'|e w']; try reflexivity.
      exfalso. now apply (Hnext cb w'). }
    split.
    { intros cb. split; [intros H; exfalso; now apply (Hno cb)|].
      intros (_ & evs' & w' & H & _). injection H as _ ->.
      exfalso. now apply (Hnext cb w'). }
    split; [intros cb H; exfalso; now apply (Hno cb)|].
    split.
    { intros evs' cb w' e _ H. injection H as _ ->.
      exfalso. now apply (Hnext cb w'). }
    split; [|intros [cb H]; exfalso; now apply (Hno cb)].
    intros [file Hin]. exfalso. exact (print_done_turn file Hev Hin).
Qed.

(** X8. The codebook a run writes has at most one sheet for each call to
    the service, and the service is called at most once for each listed
    document. *)
Theorem sheets_at_most_calls (items : list item) (w : World) (cb : Codebook) :
  snd (run items w) = Written cb ->
  List.length cb <= List.length (groq_calls (fst (run items w)))
  /\ List.length (groq_calls (fst (run items w))) <= List.length items.
Proof.
  destruct items as [|it items]; [discriminate|].
  pose proof (loop_trace (it :: items) [] w) as Ht. cbn zeta in Ht.
  destruct (run_of_loop it items w)
    as [(evs & cb' & w' & Hl & _ & ->)
       |[(evs & cb' & w' & e & Hl & _ & ->)
        |(evs & t & o & Hl & -> & Hno & _)]];
    rewrite Hl in Ht; cbn [fst snd] in *;
    destruct Ht as (done & rest & Hsplit & _ & Hc & Hnext).
  - intros H. injection H as <-.
    destruct (Hnext cb' w' eq_refl) as (-> & Hlen & _).
    rewrite groq_calls_app.
    change (groq_calls [ExcelWrite output_file cb'; PrintDone output_file])
      with (@nil str).
    rewrite app_nil_r. rewrite Hsplit, app_nil_r. simpl in Hlen.
    split; [exact Hlen | exact Hc].
  - discriminate.
  - intros H. exfalso. now apply (Hno cb).
Qed.

(** X9. When no listed document is blank, the sheets of the written
    codebook stand in the order in which their names first occur in the
    listing: a document that overwrites a sheet leaves it in its place. *)
Theorem sheet_order_first_occurrence
    (items : list item) (w : World) (cb : Codebook) :
  snd (run items w) = Written cb ->
  ~ In PrintEmpty (fst (run items w)) ->
  dict_keys cb = first_occurrences (map sheet items).
Proof.
  destruct items as [|it items]; [discriminate|].
  pose proof (loop_trace (it :: items) [] w) as Ht. cbn zeta in Ht.
  destruct (run_of_loop it items w)
    as [(evs & cb' & w' & Hl & _ & ->)
       |[(evs & cb' & w' & e & Hl & _ & ->)
        |(evs & t & o & Hl & -> & Hno & _)]];
    rewrite Hl in Ht; cbn [fst snd] in *;
    destruct Ht as (done & rest & _ & _ & _ & Hnext).
  - intros H Hempty. injection H as <-.
    destruct (Hnext cb' w' eq_refl) as (_ & _ & Hkeys).
    apply Hkeys. intros Hin. apply Hempty. apply in_or_app. now left.
  - discriminate.
  - intros H. exfalso. now apply (Hno cb).
Qed.

Lemma loop_all_blank (items : list item) (cb : Codebook) (w : World) :
  (forall it w0, In it items ->
                 forallb isspace (fst (read_docx_file_content (id it) w0))
                 = true) ->
  exists w', loop items cb w = (flat_map skipped items, Next cb w').
Proof.
  revert w; induction items as [|it items IH]; intros w Hall.
  - now exists w.
  - rewrite loop_cons.
    assert (Hb : blank read_docx_file_content it w
                       (snd (read_docx_file_content (id it) w))).
    { exists (fst (read_docx_file_content (id it) w)). split.
      - now destruct (read_docx_file_content (id it) w).
      - apply Hall. now left. }
    rewrite (body_blank analyze_document json_loads cb Hb).
    destruct (IH (snd (read_docx_file_content (id it) w))) as [w' ->].
    + intros it' w0 Hin. apply Hall. now right.
    + now exists w'.
Qed.

Lemma groq_calls_skipped (items : list item) :
  groq_calls (flat_map skipped items) = [].
Proof.
  induction items as [|it items IH]; [reflexivity|].
  cbn [flat_map]. rewrite groq_calls_app, IH. reflexivity.
Qed.

Lemma excel_writes_skipped (items : list item) :
  excel_writes (flat_map skipped items) = [].
Proof.
  induction items as [|it items IH]; [reflexivity|].
  cbn [flat_map]. rewrite excel_writes_app, IH. reflexivity.
Qed.

(** X10. When every listed document is blank, the run calls the service
    for none of them and has no early return for that case: it goes on to
    the writer with a codebook without any sheet.  How the run ends is then
    the writer's affair: with the closing message when it takes the empty
    codebook, on its exception, without the message, when it refuses it. *)
Theorem all_blank_hands_writer_no_sheet (items : list item) (w : World) :
  items <> [] ->
  (forall it w0, In it items ->
                 forallb isspace (fst (read_docx_file_content (id it) w0))
                 = true) ->
  exists w',
    loop items [] w = (flat_map skipped items, Next [] w')
    /\ groq_calls (fst (run items w)) = []
    /\ excel_writes (fst (run items w)) = [(output_file, [])]
    /\ run items w
       = match excel_writer output_file [] w' with
         | None =>
             (flat_map skipped items
                ++ [ExcelWrite output_file []; PrintDone output_file],
              Written [])
         | Some e =>
             (flat_map skipped items ++ [ExcelWrite output_file []],
              Uncaught e)
         end.
Proof.
  intros Hne Hall. destruct items as [|it items]; [congruence|].
  destruct (loop_all_blank (it :: items) [] w Hall) as [w' Hl].
  exists w'. split; [exact Hl|].
  assert (Hrun : run (it :: items) w
                 = match excel_writer output_file [] w' with
                   | None =>
                       (flat_map skipped (it :: items)
                          ++ [ExcelWrite output_file [];
                              PrintDone output_file],
                        Written [])
                   | Some e =>
                       (flat_map skipped (it :: items)
                          ++ [ExcelWrite output_file []],
                        Uncaught e)
                   end).
  { unfold main. rewrite Hl. reflexivity. }
  rewrite Hrun.
  destruct (excel_writer output_file [] w'); cbn [fst];
    rewrite groq_calls_app, excel_writes_app, groq_calls_skipped,
      excel_writes_skipped; repeat split; reflexivity.
Qed.
End RunTraces.

Lemma sheets_at_most_calls_witness :
  List.length [(slice_to 31 long_name, other_table)]
  <= List.length
       (groq_calls
          (fst (main demo_read (demo_analyze [example_response; other_response])
                     Json.loads demo_writer [doc1; blank_doc; doc2] 0)))
  /\ List.length
       (groq_calls
          (fst (main demo_read (demo_analyze [example_response; other_response])
                     Json.loads demo_writer [doc1; blank_doc; doc2] 0)))
     <= List.length [doc1; blank_doc; doc2].
Proof.
  apply (@sheets_at_most_calls nat demo_read
           (demo_analyze [example_response; other_response]) Json.loads
           demo_writer [doc1; blank_doc; doc2] 0).
  vm_compute. reflexivity.
Defined.

Lemma sheet_order_first_occurrence_witness :
  dict_keys [(slice_to 31 long_name, example_table);
             (py "Interview 3", other_table)]
  = first_occurrences (map sheet [doc1; doc3; doc2]).
Proof.
  apply (@sheet_order_first_occurrence nat demo_read
           (demo_analyze [other_response; other_response; example_response])
           Json.loads demo_writer [doc1; doc3; doc2] 0).
  - vm_compute. reflexivity.
  - vm_compute. intuition discriminate.
Defined.

Lemma all_blank_hands_writer_no_sheet_witness :
  exists w',
    for_items demo_read (demo_analyze []) Json.loads [blank_doc; blank_doc] [] 0
    = (flat_map skipped [blank_doc; blank_doc], Next [] w')
    /\ groq_calls
         (fst (main demo_read (demo_analyze []) Json.loads demo_writer
                    [blank_doc; blank_doc] 0))
       = []
    /\ excel_writes
         (fst (main demo_read (demo_analyze []) Json.loads demo_writer
                    [blank_doc; blank_doc] 0))
       = [(output_file, [])]
    /\ main demo_read (demo_analyze []) Json.loads demo_writer
            [blank_doc; blank_doc] 0
       = (flat_map skipped [blank_doc; blank_doc]
            ++ [ExcelWrite output_file []],
          Uncaught (IndexError (py "At least one sheet must be visible"))).
Proof.
  apply (@all_blank_hands_writer_no_sheet nat demo_read (demo_analyze [])
           Json.loads demo_writer [blank_doc; blank_doc] 0).
  - discriminate.
  - intros it w0 [<-|[<-|[]]]; reflexivity.
Defined.

(** ** Paragraphs *)

Lemma join_blank (ps : list str) :
  blank_text (join [LF] ps) <-> Forall blank_text ps.
Proof.
  unfold blank_text. induction ps as [|p ps IH]; [simpl; split; auto|].
  destruct ps as [|q ps].
  - simpl. split; [intros H; now constructor | now inversion 1].
  - change (join [LF] (p :: q :: ps)) with (p ++ [LF] ++ join [LF] (q :: ps)).
    rewrite !forallb_app. cbn [forallb]. rewrite !andb_true_iff.
    rewrite IH. split.
    + intros (Hp & _ & Hr). now constructor.
    + inversion 1; subst. repeat split; auto.
Qed.

(** X11. The text of a document is its paragraphs joined by newlines, so
    the loop passes a document over exactly when every paragraph is white
    space only (also when it has no paragraph at all); otherwise the
    service gets the paragraphs, joined by newlines, as they are. *)
Theorem docx_skipped_iff_all_blank
    (World : Type) (paragraphs : str -> World -> list str * World)
    (analyze_document : str -> World -> str * World)
    (json_loads : str -> result json)
    (it : item) (cb : Codebook) (w w' : World) (ps : list str) :
  paragraphs (id it) w = (ps, w') ->
  (Forall blank_text ps
   <-> loop_body (read_docx_file_content paragraphs) analyze_document
                 json_loads it cb w
       = (skipped it, Next cb w'))
  /\ (~ Forall blank_text ps ->
      exists t,
        fst (loop_body (read_docx_file_content paragraphs) analyze_document
                       json_loads it cb w)
        = seen it (join [LF] ps) ++ t).
Proof.
  intros Hps.
  assert (Hread : read_docx_file_content paragraphs (id it) w
                  = (join [LF] ps, w')).
  { unfold read_docx_file_content. now rewrite Hps. }
  assert (Hnot : ~ Forall blank_text ps ->
                 exists t,
                   fst (loop_body (read_docx_file_content paragraphs)
                          analyze_document json_loads it cb w)
                   = seen it (join [LF] ps) ++ t).
  { intros Hn. unfold loop_body. rewrite Hread.
    destruct (py_not (strip (join [LF] ps))) eqn:E.
    - exfalso. apply Hn. apply join_blank. now apply py_not_strip.
    - destruct (analyze_document (join [LF] ps) w') as [analysis w2].
      destruct (parse_response json_loads analysis) as [data|e].
      + destruct (build_rows data); exists []; now rewrite app_nil_r.
      + now exists [PrintParseError e; PrintRaw analysis]. }
  split; [split|exact Hnot].
  - intros Hall. apply body_blank. exists (join [LF] ps).
    split; [exact Hread | now apply join_blank].
  - intros Hbody. destruct (Forall_dec blank_text) with (l := ps)
      as [Hall|Hn]; [|exact Hall|].
    + intros p. unfold blank_text.
      destruct (forallb isspace p); [now left | right; discriminate].
    + exfalso. destruct (Hnot Hn) as [t Ht]. rewrite Hbody in Ht.
      discriminate.
Qed.

Lemma docx_skipped_iff_all_blank_witness :
  (Forall blank_text [[SPACE]; []; [SPACE; SPACE]]
   <-> loop_body (read_docx_file_content demo_paragraphs)
                 (demo_analyze [example_response]) Json.loads blank_doc [] 0
       = (skipped blank_doc, Next [] 0))
  /\ (~ Forall blank_text [[SPACE]; []; [SPACE; SPACE]] ->
      exists t,
        fst (loop_body (read_docx_file_content demo_paragraphs)
                       (demo_analyze [example_response]) Json.loads
                       blank_doc [] 0)
        = seen blank_doc (join [LF] [[SPACE]; []; [SPACE; SPACE]]) ++ t).
Proof.
  apply (@docx_skipped_iff_all_blank nat demo_paragraphs
           (demo_analyze [example_response]) Json.loads blank_doc [] 0 0
           [[SPACE]; []; [SPACE; SPACE]] eq_refl).
Defined.

(** ** The start of the script *)

Section ScriptFacts.
Variable World : Type.
Variable list_files : str -> World -> option (list item) * World.
Variable read_docx_file_content : str -> World -> str * World.
Variable analyze_document : str -> World -> str * World.
Variable json_loads : str -> result json.
Variable excel_writer : str -> Codebook -> World -> option exn.

Abbreviation start :=
  (script list_files read_docx_file_content analyze_document json_loads
          excel_writer).

End ScriptFacts.


(** ** The decoder on the span *)

Ltac break_match H :=
  match type of H with
  | context [match ?x with _ => _ end] => destruct x eqn:?
  end.

(** A character known by a test that the backslash fails. *)
Ltac not_backslash :=
  apply N.eqb_neq; intros ->;
  match goal with
  | H : _ = true |- _ => solve [vm_compute in H; discriminate H]
  | H : _ = Some _ |- _ => solve [vm_compute in H; discriminate H]
  end.

Lemma object_members_obj (fuel : nat) :
  forall s acc v r,
    Json.object_members fuel s acc = Some (v, r) -> exists m, v = JObj m.
Proof.
  induction fuel as [|f IH]; intros s acc v r H; [discriminate|].
  destruct s as [|q r0]; [discriminate|].
  cbn [Json.object_members] in H.
  repeat (break_match H; try discriminate).
  all: try (injection H as <- _; eauto).
  all: try (eapply IH; eauto).
Qed.

Lemma loads_ok_inv (s : str) (v : json) :
  Json.loads s = Ok v ->
  exists rest,
    Json.scan_once (2 * List.length s + 2) (Json.skip_ws s) = Some (v, rest)
    /\ Json.skip_ws rest = [].
Proof.
  intros H. unfold Json.loads in H.
  repeat (break_match H; try discriminate).
  all: injection H as <-; eexists; split; eauto.
Qed.

Lemma loads_brace_obj (rest : str) (v : json) :
  Json.loads (LBRACE :: rest) = Ok v -> exists m, v = JObj m.
Proof.
  intros H. apply loads_ok_inv in H as (r & H & _).
  change (Json.skip_ws (LBRACE :: rest)) with (LBRACE :: rest) in H.
  destruct (2 * List.length (LBRACE :: rest) + 2) as [|f] eqn:Ef;
    [simpl in Ef; lia|].
  cbn [Json.scan_once] in H.
  change (N.eqb LBRACE DQUOTE) with false in H.
  change (N.eqb LBRACE LBRACE) with true in H. cbv iota in H.
  destruct (Json.skip_ws rest) as [|c' r']; [discriminate|].
  destruct (N.eqb c' RBRACE).
  - injection H as <- _. eauto.
  - eapply object_members_obj; eauto.
Qed.

Lemma parse_response_span (analysis : str) (data : json) :
  parse_response Json.loads analysis = Ok data ->
  exists span,
    extract_json analysis = Ok span
    /\ Json.loads (clean_json_string span) = Ok data.
Proof.
  unfold parse_response. destruct (extract_json analysis) as [span|e];
    [|discriminate].
  intros H. now exists span.
Qed.

(** X13. With the decoder of the standard library, an answer that gets
    through the [try] block always gives a [dict]: the span starts with an
    opening brace, so nothing else can come out.  The [get] on the parsed
    value therefore never fails, and an [AttributeError] out of the row
    construction always comes from a theme that is not a [dict]. *)
Theorem parsed_answer_is_object (analysis : str) (data : json) :
  parse_response Json.loads analysis = Ok data ->
  exists m,
    data = JObj m
    /\ (build_rows data = Raise AttributeError ->
        exists bad, In bad (items_of (themes_of m))
                    /\ forall b, bad <> JObj b).
Proof.
  intros H. destruct (parse_response_span _ H) as (span & Hex & Hl).
  unfold extract_json in Hex.
  destruct (re_search analysis) as [m0|] eqn:E; [|discriminate].
  injection Hex as <-.
  destruct (re_search_some_split _ E) as (pre & mid & post & _ & _ & _ & ->).
  unfold clean_json_string in Hl.
  rewrite sub_newlines_head in Hl by discriminate.
  destruct (loads_brace_obj _ Hl) as [m ->].
  exists m. split; [reflexivity|].
  rewrite build_rows_obj. unfold items_of.
  destruct (py_iter_cases (themes_of m)) as [[ts Hit]|Hit]; rewrite Hit;
    cbn [bind]; [|discriminate].
  destruct (Forall_or_first ts)
    as [Hall|(good & bad & rest & -> & Hgood & Hbad)].
  - destruct (@themes_loop_ok _ [] Hall) as (added & -> & _). discriminate.
  - rewrite themes_loop_first_error by assumption.
    intros Herr. exists bad. split; [apply in_elt|].
    intros b ->. discriminate.
Qed.

Lemma parsed_answer_is_object_witness :
  exists m,
    payload_json [mk_block (py "T") [py "A"] [py "quote one"]] = JObj m
    /\ (build_rows (payload_json [mk_block (py "T") [py "A"] [py "quote one"]])
        = Raise AttributeError ->
        exists bad, In bad (items_of (themes_of m))
                    /\ forall b, bad <> JObj b).
Proof.
  apply (@parsed_answer_is_object example_response).
  vm_compute. reflexivity.
Defined.

(** *** Newlines after a backslash *)

Lemma pairs_free_plain_cons (c : char) (r : str) :
  N.eqb c BACKSLASH = false ->
  pairs_free false (c :: r) = pairs_free false r.
Proof. intros H. simpl. now rewrite H. Qed.

Lemma pairs_free_plain_app (used r : str) :
  forallb plain used = true ->
  pairs_free false (used ++ r) = pairs_free false r.
Proof.
  induction used as [|c used IH]; [reflexivity|]. simpl.
  intros H. apply andb_true_iff in H as [Hc Hu]. unfold plain in Hc.
  apply negb_true_iff in Hc. rewrite Hc. now apply IH.
Qed.

Lemma is_ws_plain (c : char) : Json.is_ws c = true -> N.eqb c BACKSLASH = false.
Proof. intros H. not_backslash. Qed.

Lemma is_digit_plain (c : char) :
  Json.is_digit c = true -> N.eqb c BACKSLASH = false.
Proof. intros H. not_backslash. Qed.

Lemma skip_ws_pairs_free (s : str) :
  pairs_free false (Json.skip_ws s) = pairs_free false s.
Proof.
  induction s as [|c s IH]; [reflexivity|].
  cbn [Json.skip_ws]. destruct (Json.is_ws c) eqn:E; [|reflexivity].
  rewrite IH. symmetry. apply pairs_free_plain_cons. now apply is_ws_plain.
Qed.

Lemma starts_with_app (p s r : str) :
  Json.starts_with p s = Some r -> s = p ++ r.
Proof.
  revert s; induction p as [|x p IH]; intros [|y s]; simpl;
    try discriminate; try (intros H; now injection H as ->).
  destruct (N.eqb x y) eqn:E; [|discriminate].
  apply N.eqb_eq in E. subst y. intros H. f_equal. now apply IH.
Qed.

Lemma constant_pairs_free (s : str) (v : json) (r : str) :
  Json.constant s = Some (v, r) ->
  pairs_free false s = pairs_free false r.
Proof.
  unfold Json.constant. intros H.
  repeat (break_match H; try discriminate).
  all: injection H as _ <-;
    match goal with
    | E : Json.starts_with _ _ = Some _ |- _ =>
        apply starts_with_app in E; subst s; reflexivity
    end.
Qed.

Lemma span_digits_spec (s ds r : str) :
  Json.span_digits s = (ds, r) ->
  s = ds ++ r /\ forallb plain ds = true.
Proof.
  revert ds r; induction s as [|c s IH]; intros ds r; simpl.
  - intros H. injection H as <- <-. now split.
  - destruct (Json.is_digit c) eqn:E.
    + destruct (Json.span_digits s) as [ds' r'].
      intros H. injection H as <- <-.
      destruct (IH _ _ eq_refl) as [-> Hp]. split; [reflexivity|].
      simpl. rewrite Hp. unfold plain. now rewrite (is_digit_plain _ E).
    + intros H. injection H as <- <-. now split.
Qed.

Ltac break_any :=
  match goal with
  | E : context [match ?x with _ => _ end] |- _ => destruct x eqn:?
  | E : (_, _) = (_, _) |- _ => inversion E; subst; clear E
  | E : Some _ = Some _ |- _ => inversion E; subst; clear E
  | E : Json.span_digits _ = (_, _) |- _ =>
      apply span_digits_spec in E as [? ?]; subst
  | E : forallb plain (_ :: _) = true |- _ => cbn [forallb] in E
  | E : _ && _ = true |- _ => apply andb_true_iff in E as [? ?]
  | E : Some _ = None |- _ => discriminate E
  | E : None = Some _ |- _ => discriminate E
  | E : [] = (_ :: _) ++ _ |- _ => discriminate E
  | E : _ :: _ = (_ :: _) ++ _ |- _ => simpl in E; injection E as ? ?; subst
  end.
Ltac skip_plain :=
  repeat first
    [ progress cbn [app]
    | rewrite pairs_free_plain_app by assumption
    | rewrite pairs_free_plain_cons by not_backslash ].
Lemma match_number_pairs_free (s : str) (v : json) (r : str) :
  Json.match_number s = Some (v, r) ->
  pairs_free false s = pairs_free false r.
Proof.
  unfold Json.match_number. intros H.
  repeat break_any.
  all: skip_plain; try reflexivity.
Qed.

Lemma hex_digit_plain (h : char) (x : N) :
  Json.hex_digit h = Some x ->
  N.eqb h BACKSLASH = false /\ N.eqb h LF = false.
Proof.
  intros H. split; apply N.eqb_neq; intros ->; vm_compute in H;
    discriminate H.
Qed.

Lemma pairs_free_escape_u (b : bool) (s : str) (u : N) (r : str) :
  Json.hex4 s = Some (u, r) ->
  (forall b', pairs_free b' r = true) ->
  pairs_free b (BACKSLASH :: 117%N :: s) = true.
Proof.
  unfold Json.hex4. intros H Hr.
  destruct s as [|h1 [|h2 [|h3 [|h4 rest]]]]; try discriminate.
  destruct (Json.hex_digit h1) eqn:E1; [|discriminate].
  destruct (Json.hex_digit h2) eqn:E2; [|discriminate].
  destruct (Json.hex_digit h3) eqn:E3; [|discriminate].
  destruct (Json.hex_digit h4) eqn:E4; [|discriminate].
  injection H as _ <-.
  destruct (hex_digit_plain _ E1) as [P1 L1].
  destruct (hex_digit_plain _ E2) as [P2 L2].
  destruct (hex_digit_plain _ E3) as [P3 L3].
  destruct (hex_digit_plain _ E4) as [P4 L4].
  cbn [pairs_free]. rewrite P1, P2, P3, L1, L2, L3, L4, Hr.
  change (N.eqb BACKSLASH LF) with false.
  change (N.eqb 117 LF) with false.
  change (N.eqb 117 BACKSLASH) with false.
  now rewrite !andb_false_r.
Qed.

Lemma scanstring_pairs_free (fuel : nat) :
  forall s acc x r,
    Json.scanstring fuel s acc = Some (x, r) ->
    pairs_free false r = true ->
    forall b, pairs_free b s = true.
Proof.
  induction fuel as [|f IH]; intros s acc x r H Hr b; [discriminate|].
  destruct s as [|c rest]; [discriminate|].
  cbn [Json.scanstring] in H.
  destruct (N.eqb c DQUOTE) eqn:Eq.
  { apply N.eqb_eq in Eq. subst c. injection H as _ <-.
    cbn [pairs_free]. change (N.eqb DQUOTE LF) with false.
    change (N.eqb DQUOTE BACKSLASH) with false.
    now rewrite andb_false_r. }
  destruct (N.eqb c BACKSLASH) eqn:Eb.
  2: { destruct (N.ltb c 32) eqn:E32; [discriminate|].
       assert (El : N.eqb c LF = false)
         by (apply N.eqb_neq; intros ->; vm_compute in E32; discriminate).
       cbn [pairs_free]. rewrite El, andb_false_r. cbn [negb andb].
       eapply IH; eauto. }
  apply N.eqb_eq in Eb. subst c.
  destruct rest as [|e rest1]; [discriminate|].
  destruct (N.eqb e 117) eqn:Eu.
  - apply N.eqb_eq in Eu. subst e.
    destruct (Json.hex4 rest1) as [[u rest2]|] eqn:Eh; [|discriminate].
    apply (pairs_free_escape_u b _ Eh). intros b'.
    destruct rest2 as [|b0 [|v0 rest3]]; try (eapply IH; eauto; fail).
    destruct (Json.is_high_surrogate u && N.eqb b0 92 && N.eqb v0 117) eqn:Es;
      [|eapply IH; eauto].
    apply andb_true_iff in Es as [Es Ev]. apply andb_true_iff in Es as [_ Eb0].
    apply N.eqb_eq in Ev. apply N.eqb_eq in Eb0. subst b0 v0.
    destruct (Json.hex4 rest3) as [[u2 rest4]|] eqn:Eh2; [|discriminate].
    destruct (Json.is_low_surrogate u2); [|eapply IH; eauto].
    apply (pairs_free_escape_u b' _ Eh2). intros b''. eapply IH; eauto.
  - destruct (Json.simple_escape e) as [x0|] eqn:Ee; [|discriminate].
    assert (El : N.eqb e LF = false)
      by (apply N.eqb_neq; intros ->; vm_compute in Ee; discriminate).
    cbn [pairs_free]. rewrite El. change (N.eqb BACKSLASH LF) with false.
    rewrite andb_false_r. cbn [negb andb]. eapply IH; eauto.
Qed.

Lemma decode_pairs_free (fuel : nat) :
  (forall s v r,
      Json.scan_once fuel s = Some (v, r) ->
      pairs_free false r = true -> pairs_free false s = true)
  /\ (forall s acc v r,
         Json.array_items fuel s acc = Some (v, r) ->
         pairs_free false r = true -> pairs_free false s = true)
  /\ (forall s acc v r,
         Json.object_members fuel s acc = Some (v, r) ->
         pairs_free false r = true -> pairs_free false s = true).
Proof.
  induction fuel as [|f (IHs & IHa & IHo)].
  - repeat split; intros; discriminate.
  - split; [|split].
    + intros s v r H Hr. destruct s as [|c rest]; [discriminate|].
      cbn [Json.scan_once] in H.
      destruct (N.eqb c DQUOTE) eqn:Eq.
      { apply N.eqb_eq in Eq. subst c.
        destruct (Json.scanstring (S (List.length rest)) rest [])
          as [[x r']|] eqn:Es; [|discriminate].
        injection H as _ <-. rewrite pairs_free_plain_cons by reflexivity.
        eapply scanstring_pairs_free; eauto. }
      destruct (N.eqb c LBRACE) eqn:El.
      { apply N.eqb_eq in El. subst c.
        rewrite pairs_free_plain_cons by reflexivity.
        rewrite <- skip_ws_pairs_free.
        destruct (Json.skip_ws rest) as [|c' r']; [discriminate|].
        destruct (N.eqb c' RBRACE) eqn:Er.
        - injection H as _ <-. apply N.eqb_eq in Er. subst c'.
          now rewrite pairs_free_plain_cons by reflexivity.
        - eapply IHo; eauto. }
      destruct (N.eqb c 91) eqn:Ea.
      { apply N.eqb_eq in Ea. subst c.
        rewrite pairs_free_plain_cons by reflexivity.
        rewrite <- skip_ws_pairs_free.
        destruct (Json.skip_ws rest) as [|c' r']; [discriminate|].
        destruct (N.eqb c' 93) eqn:Er.
        - injection H as _ <-. apply N.eqb_eq in Er. subst c'.
          now rewrite pairs_free_plain_cons by reflexivity.
        - eapply IHa; eauto. }
      destruct (Json.constant (c :: rest)) as [found|] eqn:Ec.
      { injection H as ->. now rewrite (constant_pairs_free _ Ec). }
      { now rewrite (match_number_pairs_free _ H). }
    + intros s acc v r H Hr. cbn [Json.array_items] in H.
      destruct (Json.scan_once f s) as [[v0 r0]|] eqn:Es; [|discriminate].
      eapply IHs; eauto. rewrite <- skip_ws_pairs_free.
      destruct (Json.skip_ws r0) as [|c r']; [discriminate|].
      destruct (N.eqb c 93) eqn:E93.
      { injection H as _ <-. apply N.eqb_eq in E93. subst c.
        now rewrite pairs_free_plain_cons by reflexivity. }
      destruct (N.eqb c 44) eqn:E44; [|discriminate].
      apply N.eqb_eq in E44. subst c.
      rewrite pairs_free_plain_cons by reflexivity.
      rewrite <- skip_ws_pairs_free. eapply IHa; eauto.
    + intros s acc v r H Hr. destruct s as [|q r0]; [discriminate|].
      cbn [Json.object_members] in H.
      destruct (N.eqb q DQUOTE) eqn:Eq; [|discriminate].
      apply N.eqb_eq in Eq. subst q. cbn [negb] in H.
      destruct (Json.scanstring (S (List.length r0)) r0 [])
        as [[key r1]|] eqn:Ek; [|discriminate].
      rewrite pairs_free_plain_cons by reflexivity.
      eapply scanstring_pairs_free; eauto.
      rewrite <- skip_ws_pairs_free.
      destruct (Json.skip_ws r1) as [|colon r2]; [discriminate|].
      destruct (N.eqb colon 58) eqn:Ecol; [|discriminate].
      apply N.eqb_eq in Ecol. subst colon. cbn [negb] in H.
      rewrite pairs_free_plain_cons by reflexivity.
      rewrite <- skip_ws_pairs_free.
      destruct (Json.scan_once f (Json.skip_ws r2)) as [[v0 r3]|] eqn:Es;
        [|discriminate].
      eapply IHs; eauto. rewrite <- skip_ws_pairs_free.
      destruct (Json.skip_ws r3) as [|c r4]; [discriminate|].
      destruct (N.eqb c RBRACE) eqn:Er.
      { injection H as _ <-. apply N.eqb_eq in Er. subst c.
        now rewrite pairs_free_plain_cons by reflexivity. }
      destruct (N.eqb c 44) eqn:E44; [|discriminate].
      apply N.eqb_eq in E44. subst c.
      rewrite pairs_free_plain_cons by reflexivity.
      rewrite <- skip_ws_pairs_free. eapply IHo; eauto.
Qed.

Lemma loads_pairs_free (s : str) (v : json) :
  Json.loads s = Ok v -> pairs_free false s = true.
Proof.
  intros H. apply loads_ok_inv in H as (rest & H & Hrest).
  rewrite <- skip_ws_pairs_free.
  eapply (proj1 (decode_pairs_free _)); eauto.
  now rewrite <- skip_ws_pairs_free, Hrest.
Qed.

Lemma pairs_free_no_pair (s : str) :
  forall b i,
    pairs_free b s = true ->
    nth_error s i = Some BACKSLASH -> nth_error s (S i) <> Some LF.
Proof.
  induction s as [|c s IH]; intros b i H Hi; [destruct i; discriminate|].
  cbn [pairs_free] in H. apply andb_true_iff in H as [_ H].
  destruct i as [|i].
  - simpl in Hi. injection Hi as ->. change (N.eqb BACKSLASH BACKSLASH)
      with true in H.
    destruct s as [|d s]; [discriminate|]. simpl. intros E. injection E as ->.
    discriminate H.
  - eapply IH; eauto.
Qed.

(** X14. What the decoder accepts has no newline right after a backslash.
    So the newlines the look-behind of [clean_json_string] spares are of no
    use to the [try] block: when an answer gets through it, the span had no
    newline after a backslash, and the sanitized span no newline at all. *)
Theorem spared_newline_never_parses :
  (forall s v i,
      Json.loads s = Ok v ->
      nth_error s i = Some BACKSLASH -> nth_error s (S i) <> Some LF)
  /\ (forall analysis data,
         parse_response Json.loads analysis = Ok data ->
         exists span,
           extract_json analysis = Ok span
           /\ ~ In LF (clean_json_string span)
           /\ forall i, nth_error span i = Some LF -> ~ escaped_at span i).
Proof.
  split.
  - intros s v i H. apply pairs_free_no_pair with (b := false).
    eapply loads_pairs_free; eauto.
  - intros analysis data H.
    destruct (parse_response_span _ H) as (span & Hex & Hl).
    exists span. split; [exact Hex|].
    apply loads_pairs_free in Hl.
    assert (Hno : ~ In LF (clean_json_string span)).
    { intros Hin. apply In_nth_error in Hin as [i Hi].
      destruct (clean_nth_newline _ _ Hi) as [_ (j & -> & Hj)].
      apply (@pairs_free_no_pair _ false j Hl); [|exact Hi].
      rewrite clean_nth_other; [exact Hj|].
      intros [Hlf _]. rewrite Hj in Hlf. discriminate. }
    split; [exact Hno|].
    intros i Hi Hesc. apply Hno. apply nth_error_In with (n := i).
    rewrite clean_nth_other; [exact Hi|]. intros [_ Hne]. contradiction.
Qed.

Lemma spared_newline_never_parses_witness :
  exists span,
    extract_json example_response = Ok span
    /\ ~ In LF (clean_json_string span)
    /\ forall i, nth_error span i = Some LF -> ~ escaped_at span i.
Proof.
  apply (proj2 spared_newline_never_parses example_response
           (payload_json [mk_block (py "T") [py "A"] [py "quote one"]])).
  vm_compute. reflexivity.
Defined.

(** *** Newlines between the tokens *)

Lemma soften_other (c : char) : c <> LF -> soften c = c.
Proof. intros H. unfold soften. apply N.eqb_neq in H. now rewrite H. Qed.

Lemma soften_eqb (c k : char) :
  N.eqb LF k = false -> N.eqb SPACE k = false ->
  N.eqb (soften c) k = N.eqb c k.
Proof.
  intros H1 H2. unfold soften. destruct (N.eqb_spec c LF) as [->|_];
    [now rewrite H1, H2 | reflexivity].
Qed.

Lemma soften_digit19 (c : char) :
  (N.leb 49 (soften c) && N.leb (soften c) 57)%bool
  = (N.leb 49 c && N.leb c 57)%bool.
Proof. unfold soften. now destruct (N.eqb_spec c LF) as [->|_]. Qed.

Lemma soften_is_digit (c : char) : Json.is_digit (soften c) = Json.is_digit c.
Proof. unfold soften. now destruct (N.eqb_spec c LF) as [->|_]. Qed.

Lemma span_digits_soften (s : str) :
  Json.span_digits (map soften s)
  = (fst (Json.span_digits s), map soften (snd (Json.span_digits s))).
Proof.
  induction s as [|c s IH]; [reflexivity|].
  cbn [map Json.span_digits]. rewrite soften_is_digit.
  destruct (Json.is_digit c) eqn:E; [|reflexivity].
  rewrite IH. destruct (Json.span_digits s). cbn [fst snd]. f_equal. f_equal.
  apply soften_other. intros ->. discriminate E.
Qed.

(** A character that passed a test which the newline fails. *)
Ltac not_newline :=
  intros ->;
  match goal with
  | H : _ = true |- _ => solve [vm_compute in H; discriminate H]
  | H : _ = Some _ |- _ => solve [vm_compute in H; discriminate H]
  end.

Ltac soften_step :=
  first
    [ progress cbn [map Json.span_digits]
    | rewrite soften_digit19
    | rewrite soften_is_digit
    | rewrite soften_eqb by reflexivity
    | match goal with
      | |- context [Json.span_digits (map soften ?l)] =>
          rewrite (span_digits_soften l);
          destruct (Json.span_digits l) as [? ?]; cbn [fst snd]
      | |- context [match map soften ?l with _ => _ end] =>
          destruct l
      | |- context [match ?x with _ => _ end] =>
          lazymatch x with
          | context [soften] => fail
          | _ => destruct x eqn:?
          end
      end
    | progress cbv beta iota zeta ].

Lemma match_number_soften (s : str) :
  Json.match_number (map soften s)
  = option_map (fun p => (fst p, map soften (snd p))) (Json.match_number s).
Proof.
  unfold Json.match_number.
  repeat soften_step.
  all: cbn [option_map fst snd map];
    repeat match goal with
           | H : _ && _ = true |- _ => apply andb_true_iff in H as [? ?]
           end;
    repeat match goal with
           | |- context [soften ?c] =>
               rewrite (@soften_other c) by not_newline
           end;
    try reflexivity.
Qed.

Lemma soften_is_ws (c : char) : Json.is_ws (soften c) = Json.is_ws c.
Proof. unfold soften. now destruct (N.eqb_spec c LF) as [->|_]. Qed.

Lemma soften_hex_digit (c : char) :
  Json.hex_digit (soften c) = Json.hex_digit c.
Proof. unfold soften. now destruct (N.eqb_spec c LF) as [->|_]. Qed.

Lemma soften_simple_escape (c : char) :
  Json.simple_escape (soften c) = Json.simple_escape c.
Proof. unfold soften. now destruct (N.eqb_spec c LF) as [->|_]. Qed.

Lemma skip_ws_soften (s : str) :
  Json.skip_ws (map soften s) = map soften (Json.skip_ws s).
Proof.
  induction s as [|c s IH]; [reflexivity|].
  cbn [map Json.skip_ws]. rewrite soften_is_ws.
  now destruct (Json.is_ws c).
Qed.

Lemma starts_with_soften (p s : str) :
  forallb (fun x => negb (N.eqb LF x) && negb (N.eqb SPACE x)) p = true ->
  Json.starts_with p (map soften s)
  = option_map (map soften) (Json.starts_with p s).
Proof.
  revert s; induction p as [|x p IH]; intros s Hp; [reflexivity|].
  cbn [forallb] in Hp. apply andb_true_iff in Hp as [Hx Hp].
  apply andb_true_iff in Hx as [H1 H2].
  apply negb_true_iff in H1. apply negb_true_iff in H2.
  destruct s as [|y s]; [reflexivity|]. cbn [map Json.starts_with].
  rewrite (N.eqb_sym x (soften y)), (@soften_eqb y x H1 H2), (N.eqb_sym y x).
  destruct (N.eqb x y); [now apply IH | reflexivity].
Qed.

Lemma constant_soften (s : str) :
  Json.constant (map soften s)
  = option_map (fun p => (fst p, map soften (snd p))) (Json.constant s).
Proof.
  unfold Json.constant.
  rewrite !starts_with_soften by reflexivity.
  repeat match goal with
         | |- context [Json.starts_with ?p s] =>
             destruct (Json.starts_with p s); cbn [option_map];
             [reflexivity|]
         end.
  reflexivity.
Qed.

Lemma hex4_soften (s : str) :
  Json.hex4 (map soften s)
  = option_map (fun p => (fst p, map soften (snd p))) (Json.hex4 s).
Proof.
  unfold Json.hex4.
  destruct s as [|a [|b [|c [|d rest]]]]; try reflexivity.
  cbn [map]. rewrite !soften_hex_digit.
  destruct (Json.hex_digit a), (Json.hex_digit b), (Json.hex_digit c),
    (Json.hex_digit d); reflexivity.
Qed.

Lemma scanstring_soften (fuel : nat) :
  forall s acc x r,
    Json.scanstring fuel s acc = Some (x, r) ->
    Json.scanstring fuel (map soften s) acc = Some (x, map soften r).
Proof.
  induction fuel as [|f IH]; intros s acc x r H; [discriminate|].
  destruct s as [|c rest]; [discriminate|].
  cbn [map Json.scanstring] in *.
  rewrite !soften_eqb by reflexivity.
  destruct (N.eqb c DQUOTE) eqn:Eq.
  { now injection H as <- <-. }
  destruct (N.eqb c BACKSLASH) eqn:Eb.
  2: { destruct (N.ltb c 32) eqn:E32; [discriminate|].
       assert (Hc : soften c = c)
         by (apply soften_other; intros ->; discriminate E32).
       rewrite Hc, E32. now apply IH. }
  destruct rest as [|e rest1]; [discriminate|]. cbn [map].
  rewrite soften_eqb by reflexivity.
  destruct (N.eqb e 117) eqn:Eu.
  - rewrite hex4_soften.
    destruct (Json.hex4 rest1) as [[u rest2]|]; [|discriminate].
    cbn [option_map fst snd].
    destruct rest2 as [|b0 [|v0 rest3]];
      [apply (IH []) in H; exact H | apply (IH [b0]) in H; exact H|].
    cbn [map]. rewrite !soften_eqb by reflexivity.
    destruct (Json.is_high_surrogate u && N.eqb b0 92 && N.eqb v0 117) eqn:Es.
    + rewrite hex4_soften.
      destruct (Json.hex4 rest3) as [[u2 rest4]|]; [|discriminate].
      cbn [option_map fst snd].
      destruct (Json.is_low_surrogate u2).
      * now apply IH.
      * apply (IH (b0 :: v0 :: rest3)) in H. exact H.
    + apply (IH (b0 :: v0 :: rest3)) in H. exact H.
  - rewrite soften_simple_escape.
    destruct (Json.simple_escape e); [now apply IH | discriminate].
Qed.

Lemma decode_soften (fuel : nat) :
  (forall s v r,
      Json.scan_once fuel s = Some (v, r) ->
      Json.scan_once fuel (map soften s) = Some (v, map soften r))
  /\ (forall s acc v r,
         Json.array_items fuel s acc = Some (v, r) ->
         Json.array_items fuel (map soften s) acc = Some (v, map soften r))
  /\ (forall s acc v r,
         Json.object_members fuel s acc = Some (v, r) ->
         Json.object_members fuel (map soften s) acc
         = Some (v, map soften r)).
Proof.
  induction fuel as [|f (IHs & IHa & IHo)].
  - repeat split; intros; discriminate.
  - split; [|split].
    + intros s v r H. destruct s as [|c rest]; [discriminate|].
      cbn [Json.scan_once] in H.
      change (map soften (c :: rest)) with (soften c :: map soften rest).
      cbn [Json.scan_once]. rewrite !soften_eqb by reflexivity.
      rewrite length_map.
      destruct (N.eqb c DQUOTE) eqn:Eq.
      { destruct (Json.scanstring (S (List.length rest)) rest [])
          as [[x r']|] eqn:Es; [|discriminate].
        injection H as <- <-.
        now rewrite (scanstring_soften _ _ _ Es). }
      destruct (N.eqb c LBRACE) eqn:El.
      { rewrite skip_ws_soften.
        destruct (Json.skip_ws rest) as [|c' r']; [discriminate|].
        cbn [map]. rewrite soften_eqb by reflexivity.
        destruct (N.eqb c' RBRACE).
        - now injection H as <- <-.
        - apply IHo in H. exact H. }
      destruct (N.eqb c 91) eqn:Ea.
      { rewrite skip_ws_soften.
        destruct (Json.skip_ws rest) as [|c' r']; [discriminate|].
        cbn [map]. rewrite soften_eqb by reflexivity.
        destruct (N.eqb c' 93).
        - now injection H as <- <-.
        - apply IHa in H. exact H. }
      change (soften c :: map soften rest) with (map soften (c :: rest)).
      rewrite constant_soften, match_number_soften.
      destruct (Json.constant (c :: rest)) as [found|].
      { injection H as ->. reflexivity. }
      { now rewrite H. }
    + intros s acc v r H. cbn [Json.array_items] in *.
      destruct (Json.scan_once f s) as [[v0 r0]|] eqn:Es; [|discriminate].
      rewrite (IHs _ _ _ Es), skip_ws_soften.
      destruct (Json.skip_ws r0) as [|c r']; [discriminate|].
      cbn [map]. rewrite !soften_eqb by reflexivity.
      destruct (N.eqb c 93); [now injection H as <- <-|].
      destruct (N.eqb c 44); [|discriminate].
      rewrite skip_ws_soften. now apply IHa.
    + intros s acc v r H. destruct s as [|q r0]; [discriminate|].
      cbn [map Json.object_members] in *.
      rewrite soften_eqb by reflexivity. rewrite length_map.
      destruct (N.eqb q DQUOTE); [|discriminate]. cbn [negb] in *.
      destruct (Json.scanstring (S (List.length r0)) r0 [])
        as [[key r1]|] eqn:Ek; [|discriminate].
      rewrite (scanstring_soften _ _ _ Ek), skip_ws_soften.
      destruct (Json.skip_ws r1) as [|colon r2]; [discriminate|].
      cbn [map]. rewrite soften_eqb by reflexivity.
      destruct (N.eqb colon 58); [|discriminate]. cbn [negb] in *.
      rewrite skip_ws_soften.
      destruct (Json.scan_once f (Json.skip_ws r2)) as [[v0 r3]|] eqn:Es;
        [|discriminate].
      rewrite (IHs _ _ _ Es), skip_ws_soften.
      destruct (Json.skip_ws r3) as [|c r4]; [discriminate|].
      cbn [map]. rewrite !soften_eqb by reflexivity.
      destruct (N.eqb c RBRACE); [now injection H as <- <-|].
      destruct (N.eqb c 44); [|discriminate].
      rewrite skip_ws_soften. now apply IHo.
Qed.

Lemma loads_unfold (s : str) :
  Json.loads s
  = if match s with c :: _ => N.eqb c 65279 | [] => false end
    then Raise JSONDecodeError
    else match Json.scan_once (2 * List.length s + 2) (Json.skip_ws s) with
         | Some (v, rest) =>
             match Json.skip_ws rest with
             | [] => Ok v
             | _ :: _ => Raise JSONDecodeError
             end
         | None => Raise JSONDecodeError
         end.
Proof.
  unfold Json.loads. destruct s as [|c s']; [reflexivity|].
  destruct (N.eqb_spec c 65279) as [->|Hc]; [reflexivity|].
  destruct c as [|p]; [reflexivity|].
  repeat (destruct p as [p|p|]; try reflexivity; try (now elim Hc)).
Qed.

Lemma loads_soften (s : str) (v : json) :
  Json.loads s = Ok v -> Json.loads (map soften s) = Ok v.
Proof.
  rewrite !loads_unfold.
  assert (Hhd : match map soften s with c :: _ => N.eqb c 65279 | [] => false end
                = match s with c :: _ => N.eqb c 65279 | [] => false end).
  { destruct s as [|c s']; [reflexivity|]. cbn [map].
    now rewrite soften_eqb by reflexivity. }
  rewrite Hhd. destruct (match s with c :: _ => N.eqb c 65279 | [] => false end);
    [discriminate|].
  rewrite length_map, skip_ws_soften.
  destruct (Json.scan_once (2 * List.length s + 2) (Json.skip_ws s))
    as [[v0 rest]|] eqn:Es; [|discriminate].
  rewrite (proj1 (decode_soften _) _ _ _ Es), skip_ws_soften.
  now destruct (Json.skip_ws rest).
Qed.

Lemma sub_newlines_soften (s : str) :
  forall prev,
    pairs_free (preceded_by_backslash prev) s = true ->
    sub_newlines prev s = map soften s.
Proof.
  induction s as [|c s IH]; intros prev H; [reflexivity|].
  cbn [pairs_free] in H. apply andb_true_iff in H as [Hc Hs].
  cbn [sub_newlines map]. f_equal.
  - unfold soften. destruct (N.eqb c LF); [|reflexivity].
    rewrite andb_true_r in Hc. now rewrite Hc.
  - now apply IH.
Qed.

(** X15. The sanitizer is harmless on a span that is JSON already: what
    the decoder accepts, it accepts after [clean_json_string] too, with the
    same value (the newlines of such a text stand between tokens, and a
    space does there what a newline does).  So an answer whose span decodes
    as it is gets through the [try] block with that value. *)
Theorem clean_keeps_valid_json :
  (forall s v,
      Json.loads s = Ok v -> Json.loads (clean_json_string s) = Ok v)
  /\ (forall analysis span v,
         extract_json analysis = Ok span ->
         Json.loads span = Ok v ->
         parse_response Json.loads analysis = Ok v).
Proof.
  assert (H : forall s v,
             Json.loads s = Ok v ->
             Json.loads (clean_json_string s) = Ok v).
  { intros s v Hs. unfold clean_json_string.
    rewrite sub_newlines_soften.
    - now apply loads_soften.
    - cbn [preceded_by_backslash]. eapply loads_pairs_free; eauto. }
  split; [exact H|].
  intros analysis span v Hex Hl. unfold parse_response. rewrite Hex.
  cbn [bind]. now apply H.
Qed.

Lemma clean_keeps_valid_json_witness :
  parse_response Json.loads multi_line_response
  = Ok (JObj [(py "themes", JArr [])]).
Proof.
  apply (proj2 clean_keeps_valid_json multi_line_response
           (py "{" ++ [LF] ++ py "  " ++ quoted (py "themes")
              ++ py ": [" ++ [LF] ++ py "  ]" ++ [LF] ++ py "}"));
    vm_compute; reflexivity.
Defined.

(** ** Answers in the format of the prompt *)

(** The JSON of the examples is the text of a payload of one block. *)
Lemma coding_json_text (th c v : str) :
  coding_json th c v = payload_text [mk_block th [c] [v]].
Proof. unfold coding_json, payload_text, quoted. cbn. rewrite <- !app_assoc. reflexivity. Qed.

(** *** The decoder on the text of a payload *)

Lemma scanstring_put (x : str) :
  forall fuel k acc,
    forallb literal_char x = true -> List.length x < fuel ->
    Json.scanstring fuel (x ++ DQUOTE :: k) acc = Some (rev acc ++ x, k).
Proof.
  induction x as [|c x IH]; intros fuel k acc Hp Hf.
  - destruct fuel; [lia|]. cbn. now rewrite app_nil_r.
  - destruct fuel as [|f]; [simpl in Hf; lia|].
    cbn [forallb] in Hp. apply andb_true_iff in Hp as [Hc Hx].
    unfold literal_char in Hc. apply andb_true_iff in Hc as [Hc Hb].
    apply andb_true_iff in Hc as [H32 Hq].
    apply negb_true_iff in Hb. apply negb_true_iff in Hq.
    cbn [app Json.scanstring]. rewrite Hq, Hb.
    assert (Hlt : N.ltb c 32 = false).
    { apply N.ltb_ge. now apply N.leb_le. }
    rewrite Hlt. rewrite IH by (auto; simpl in Hf; lia).
    cbn [rev]. now rewrite <- app_assoc.
Qed.

Lemma scan_once_str (x k : str) (fuel : nat) :
  forallb literal_char x = true -> 1 <= fuel ->
  Json.scan_once fuel (put_str x k) = Some (JStr x, k).
Proof.
  intros Hp Hf. destruct fuel as [|f]; [lia|].
  unfold put_str. cbn [Json.scan_once].
  change (N.eqb DQUOTE DQUOTE) with true. cbv iota.
  rewrite scanstring_put; [reflexivity | exact Hp |].
  rewrite length_app. simpl. lia.
Qed.

Lemma skip_ws_put_str (x k : str) : Json.skip_ws (put_str x k) = put_str x k.
Proof. reflexivity. Qed.

Lemma array_items_strs (l : list str) :
  forall fuel k acc,
    l <> [] ->
    forallb (forallb literal_char) l = true ->
    List.length l < fuel ->
    Json.array_items fuel (put_items l (93%N :: k)) acc
    = Some (JArr (rev acc ++ map JStr l), k).
Proof.
  induction l as [|x l IH]; intros fuel k acc Hne Hp Hf; [congruence|].
  destruct fuel as [|f]; [simpl in Hf; lia|].
  cbn [forallb] in Hp. apply andb_true_iff in Hp as [Hx Hl].
  cbn [put_items Json.array_items].
  rewrite scan_once_str by (auto; simpl in Hf; lia).
  destruct l as [|y l'].
  - cbn. reflexivity.
  - change (Json.skip_ws (44%N :: put_items (y :: l') (93%N :: k)))
      with (44%N :: put_items (y :: l') (93%N :: k)).
    cbv iota. change ((44 =? 93)%N) with false. change ((44 =? 44)%N) with true.
    cbv iota.
    change (Json.skip_ws (put_items (y :: l') (93%N :: k)))
      with (put_items (y :: l') (93%N :: k)).
    rewrite IH by (auto; try congruence; simpl in Hf |- *; lia).
    cbn [rev map]. now rewrite <- app_assoc.
Qed.

Lemma scan_once_list (l : list str) (k : str) (fuel : nat) :
  forallb (forallb literal_char) l = true ->
  List.length l + 2 <= fuel ->
  Json.scan_once fuel (put_list l k) = Some (JArr (map JStr l), k).
Proof.
  intros Hp Hf. destruct fuel as [|f]; [lia|].
  destruct l as [|x l].
  - reflexivity.
  - unfold put_list.
    change (Json.scan_once (S f) (91%N :: put_items (x :: l) (93%N :: k)))
      with (Json.array_items f (put_items (x :: l) (93%N :: k)) []).
    rewrite array_items_strs by (auto; try congruence; simpl in Hf |- *; lia).
    reflexivity.
Qed.

Lemma object_members_step (key body : str) (f : nat) (acc : dict json) :
  forallb literal_char key = true ->
  Json.object_members (S f) (put_str key (58%N :: body)) acc
  = match Json.scan_once f (Json.skip_ws body) with
    | None => None
    | Some (v, r3) =>
        match Json.skip_ws r3 with
        | c :: r4 =>
            if N.eqb c RBRACE then Some (JObj (dict_set acc key v), r4)
            else if (c =? 44)%N
                 then Json.object_members f (Json.skip_ws r4) (dict_set acc key v)
                 else None
        | [] => None
        end
    end.
Proof.
  intros Hk. unfold put_str. cbn [Json.object_members].
  change (N.eqb DQUOTE DQUOTE) with true. cbn [negb].
  rewrite scanstring_put by (auto; rewrite length_app; simpl; lia).
  cbn [rev app].
  change (Json.skip_ws (58%N :: body)) with (58%N :: body).
  cbv iota. change ((58 =? 58)%N) with true. cbn [negb]. cbv iota.
  reflexivity.
Qed.

Lemma scan_once_block (b : ThemeBlock) (k : str) (fuel : nat) :
  literal_block b = true ->
  Nat.max (List.length (codings b)) (List.length (verbatims b)) + 7 <= fuel ->
  Json.scan_once fuel (put_block b k) = Some (block_json b, k).
Proof.
  intros Hp Hf. unfold literal_block, block_chars in Hp.
  apply andb_true_iff in Hp as [Hp Hv]. apply andb_true_iff in Hp as [Ht Hc].
  destruct fuel as [|f1]; [lia|]. destruct f1 as [|f2]; [lia|].
  destruct f2 as [|f3]; [lia|]. destruct f3 as [|f4]; [lia|].
  unfold put_block.
  change (Json.scan_once (S (S (S (S f4)))) (LBRACE :: ?s))
    with (Json.object_members (S (S (S f4))) s []).
  rewrite object_members_step by reflexivity.
  rewrite skip_ws_put_str, scan_once_str by (auto; lia).
  change (Json.skip_ws (44%N :: ?s)) with (44%N :: s).
  cbv iota. change (N.eqb 44 RBRACE) with false.
  change ((44 =? 44)%N) with true. cbv iota.
  rewrite skip_ws_put_str, object_members_step by reflexivity.
  change (Json.skip_ws (put_list ?l ?s)) with (put_list l s).
  rewrite scan_once_list by (auto; lia).
  change (Json.skip_ws (44%N :: ?s)) with (44%N :: s).
  cbv iota. change (N.eqb 44 RBRACE) with false.
  change ((44 =? 44)%N) with true. cbv iota.
  rewrite skip_ws_put_str, object_members_step by reflexivity.
  change (Json.skip_ws (put_list ?l ?s)) with (put_list l s).
  rewrite scan_once_list by (auto; lia).
  change (Json.skip_ws (RBRACE :: k)) with (RBRACE :: k).
  cbv iota. change (N.eqb RBRACE RBRACE) with true. cbv iota.
  reflexivity.
Qed.

Lemma skip_ws_put_block (b : ThemeBlock) (k : str) :
  Json.skip_ws (put_block b k) = put_block b k.
Proof. reflexivity. Qed.

Lemma array_items_blocks (p : list ThemeBlock) :
  forall fuel k acc,
    p <> [] ->
    forallb literal_block p = true ->
    need_blocks p <= fuel ->
    Json.array_items fuel (put_blocks p (93%N :: k)) acc
    = Some (JArr (rev acc ++ map block_json p), k).
Proof.
  induction p as [|b p IH]; intros fuel k acc Hne Hp Hf; [congruence|].
  cbn [need_blocks] in Hf.
  destruct fuel as [|f]; [lia|].
  cbn [forallb] in Hp. apply andb_true_iff in Hp as [Hb Hl].
  cbn [put_blocks Json.array_items].
  rewrite scan_once_block by (auto; lia).
  destruct p as [|b' p'].
  - change (Json.skip_ws (93%N :: k)) with (93%N :: k).
    cbv iota. change ((93 =? 93)%N) with true. cbv iota. reflexivity.
  - change (Json.skip_ws (44%N :: ?s)) with (44%N :: s).
    cbv iota. change ((44 =? 93)%N) with false. change ((44 =? 44)%N) with true.
    cbv iota.
    change (Json.skip_ws (put_blocks (b' :: p') (93%N :: k)))
      with (put_blocks (b' :: p') (93%N :: k)).
    rewrite IH by (auto; try congruence; lia).
    cbn [rev map]. now rewrite <- app_assoc.
Qed.

Lemma length_put_str (x k : str) :
  List.length (put_str x k) = List.length x + 2 + List.length k.
Proof. unfold put_str. simpl. rewrite length_app. simpl. lia. Qed.

Lemma length_put_items (l : list str) (k : str) :
  List.length l + List.length k <= List.length (put_items l k).
Proof.
  induction l as [|x l IH]; [simpl; lia|].
  cbn [put_items]. rewrite length_put_str.
  destruct l; [simpl; lia|]. cbn [List.length] in *. lia.
Qed.

Lemma length_put_block (b : ThemeBlock) (k : str) :
  Nat.max (List.length (codings b)) (List.length (verbatims b)) + 7
  + List.length k <= List.length (put_block b k).
Proof.
  unfold put_block, put_list.
  repeat (cbn [List.length]; rewrite ?length_put_str).
  pose proof (length_put_items (verbatims b) (93%N :: RBRACE :: k)) as Hv.
  cbn [List.length] in Hv.
  set (tail := put_items (verbatims b) (93%N :: RBRACE :: k)) in *.
  pose proof (length_put_items (codings b)
                (93%N :: 44%N :: put_str (py "verbatims") (58%N :: 91%N :: tail)))
    as Hc.
  cbn [List.length] in Hc. rewrite length_put_str in Hc.
  cbn [List.length] in Hc. lia.
Qed.

Lemma need_blocks_length (p : list ThemeBlock) (k : str) :
  need_blocks p + List.length k <= List.length (put_blocks p k) + 1.
Proof.
  induction p as [|b p IH]; [simpl; lia|].
  cbn [need_blocks put_blocks].
  destruct p as [|b' p'].
  - pose proof (length_put_block b k). cbn [need_blocks]. lia.
  - pose proof (length_put_block b (44%N :: put_blocks (b' :: p') k)) as Hb.
    cbn [List.length] in Hb. lia.
Qed.

Lemma loads_payload_text (p : CodingPayload) :
  forallb literal_block p = true ->
  Json.loads (payload_text p) = Ok (payload_json p).
Proof.
  intros Hp. rewrite loads_unfold. unfold payload_text.
  change (Json.skip_ws (LBRACE :: ?s)) with (LBRACE :: s).
  cbv iota. change (N.eqb LBRACE 65279) with false. cbv iota.
  set (text := LBRACE :: put_str (py "themes")
                 (58%N :: 91%N :: put_blocks p [93%N; RBRACE])).
  assert (Hlen : need_blocks p + 1 <= List.length text).
  { subst text. cbn [List.length]. rewrite length_put_str. cbn [List.length].
    pose proof (need_blocks_length p [93%N; RBRACE]) as H. cbn [List.length] in H.
    lia. }
  destruct (2 * List.length text + 2) as [|f1] eqn:Ef; [lia|].
  destruct f1 as [|f2]; [lia|]. destruct f2 as [|f3]; [lia|].
  subst text.
  change (Json.scan_once (S (S (S f3))) (LBRACE :: ?s))
    with (Json.object_members (S (S f3)) s []).
  rewrite object_members_step by reflexivity.
  destruct p as [|b p'].
  - reflexivity.
  - change (Json.skip_ws (91%N :: put_blocks (b :: p') [93%N; RBRACE]))
      with (91%N :: put_blocks (b :: p') [93%N; RBRACE]).
    change (Json.scan_once (S f3) (91%N :: put_blocks (b :: p') [93%N; RBRACE]))
      with (Json.array_items f3 (put_blocks (b :: p') [93%N; RBRACE]) []).
    rewrite array_items_blocks by (auto; try congruence; lia).
    reflexivity.
Qed.

(** *** The text of a payload as a span *)

Lemma put_str_app (x k k' : str) : put_str x (k ++ k') = put_str x k ++ k'.
Proof. unfold put_str. cbn [app]. now rewrite <- app_assoc. Qed.

Lemma put_items_app (l : list str) (k k' : str) :
  put_items l (k ++ k') = put_items l k ++ k'.
Proof.
  induction l as [|x l IH]; [reflexivity|].
  cbn [put_items]. destruct l as [|y l'].
  - apply put_str_app.
  - rewrite IH. apply (put_str_app x (44%N :: _) k').
Qed.

Lemma put_list_app (l : list str) (k k' : str) :
  put_list l (k ++ k') = put_list l k ++ k'.
Proof. unfold put_list. cbn [app]. f_equal. apply (put_items_app l (93%N :: k)). Qed.

Lemma put_block_app (b : ThemeBlock) (k k' : str) :
  put_block b (k ++ k') = put_block b k ++ k'.
Proof.
  unfold put_block. cbn [app]. f_equal.
  repeat (progress (rewrite <- ?put_str_app, <- ?put_list_app; cbn [app])).
  reflexivity.
Qed.

Lemma put_blocks_app (p : list ThemeBlock) (k k' : str) :
  put_blocks p (k ++ k') = put_blocks p k ++ k'.
Proof.
  induction p as [|b p IH]; [reflexivity|].
  cbn [put_blocks]. destruct p as [|b' p'].
  - apply put_block_app.
  - rewrite IH. apply (put_block_app b (44%N :: _) k').
Qed.

Lemma payload_text_span (p : CodingPayload) :
  payload_text p
  = LBRACE :: put_str (py "themes") (58%N :: 91%N :: put_blocks p [93%N])
             ++ [RBRACE].
Proof.
  unfold payload_text. f_equal.
  rewrite <- (put_str_app _ (58%N :: 91%N :: _)). cbn [app].
  now rewrite <- (put_blocks_app p [93%N]).
Qed.

(** *** The sanitizer on the text of a payload *)

Lemma kept_by_cons (c : char) (k k' : str) :
  c <> LF -> c <> BACKSLASH ->
  (forall prev, preceded_by_backslash prev = false -> sub_newlines prev k = k') ->
  forall prev, preceded_by_backslash prev = false ->
               sub_newlines prev (c :: k) = c :: k'.
Proof.
  intros Hlf Hbs Hk prev _. rewrite sub_newlines_head by exact Hlf.
  f_equal. apply Hk. simpl. now apply N.eqb_neq.
Qed.

Lemma answer_char_step (c : char) (prev : option char) :
  answer_char c = true -> preceded_by_backslash prev = false ->
  (if N.eqb c LF && negb (preceded_by_backslash prev) then SPACE else c)
  = soften c
  /\ preceded_by_backslash (Some c) = false.
Proof.
  intros Hc Hp. rewrite Hp. cbn [negb]. rewrite andb_true_r. split.
  - reflexivity.
  - unfold answer_char in Hc. apply orb_true_iff in Hc as [Hc|Hc].
    + apply N.eqb_eq in Hc. now subst c.
    + unfold literal_char in Hc. apply andb_true_iff in Hc as [_ Hc].
      now apply negb_true_iff in Hc.
Qed.

Lemma sub_put_str (x k k' : str) :
  forallb answer_char x = true ->
  (forall prev, preceded_by_backslash prev = false -> sub_newlines prev k = k') ->
  forall prev, preceded_by_backslash prev = false ->
               sub_newlines prev (put_str x k) = put_str (map soften x) k'.
Proof.
  intros Hx Hk. unfold put_str.
  apply kept_by_cons; [discriminate | discriminate |].
  induction x as [|c x IH]; intros prev Hp.
  - cbn [app map]. revert prev Hp.
    apply kept_by_cons; [discriminate | discriminate | exact Hk].
  - cbn [forallb] in Hx. apply andb_true_iff in Hx as [Hc Hx].
    destruct (answer_char_step c prev Hc Hp) as [E1 E2].
    cbn [app map sub_newlines]. rewrite E1. f_equal. now apply IH.
Qed.

Lemma sub_put_items (l : list str) (k k' : str) :
  forallb (forallb answer_char) l = true ->
  (forall prev, preceded_by_backslash prev = false -> sub_newlines prev k = k') ->
  forall prev, preceded_by_backslash prev = false ->
               sub_newlines prev (put_items l k)
               = put_items (map (map soften) l) k'.
Proof.
  intros Hl Hk. induction l as [|x l IH]; [exact Hk|].
  cbn [forallb] in Hl. apply andb_true_iff in Hl as [Hx Hl].
  cbn [put_items map]. destruct l as [|y l'].
  - now apply sub_put_str.
  - apply sub_put_str; [exact Hx|].
    apply kept_by_cons; [discriminate | discriminate |]. now apply IH.
Qed.

Lemma sub_put_list (l : list str) (k k' : str) :
  forallb (forallb answer_char) l = true ->
  (forall prev, preceded_by_backslash prev = false -> sub_newlines prev k = k') ->
  forall prev, preceded_by_backslash prev = false ->
               sub_newlines prev (put_list l k)
               = put_list (map (map soften) l) k'.
Proof.
  intros Hl Hk. unfold put_list.
  apply kept_by_cons; [discriminate | discriminate |].
  apply sub_put_items; [exact Hl|].
  apply kept_by_cons; [discriminate | discriminate | exact Hk].
Qed.

Ltac kept_step :=
  first [ apply sub_put_str; [first [assumption | reflexivity] |]
        | apply sub_put_list; [assumption |]
        | apply kept_by_cons; [discriminate | discriminate |] ].

Lemma sub_put_block (b : ThemeBlock) (k k' : str) :
  answer_block b = true ->
  (forall prev, preceded_by_backslash prev = false -> sub_newlines prev k = k') ->
  forall prev, preceded_by_backslash prev = false ->
               sub_newlines prev (put_block b k) = put_block (soften_block b) k'.
Proof.
  intros Hb Hk. unfold answer_block, block_chars in Hb.
  apply andb_true_iff in Hb as [Hb Hv]. apply andb_true_iff in Hb as [Ht Hc].
  unfold put_block, soften_block. cbn [theme codings verbatims].
  change (py "theme") with (map soften (py "theme")) at 2.
  change (py "codages") with (map soften (py "codages")) at 2.
  change (py "verbatims") with (map soften (py "verbatims")) at 2.
  repeat kept_step. exact Hk.
Qed.

Lemma sub_put_blocks (p : list ThemeBlock) (k k' : str) :
  forallb answer_block p = true ->
  (forall prev, preceded_by_backslash prev = false -> sub_newlines prev k = k') ->
  forall prev, preceded_by_backslash prev = false ->
               sub_newlines prev (put_blocks p k)
               = put_blocks (map soften_block p) k'.
Proof.
  intros Hp Hk. induction p as [|b p IH]; [exact Hk|].
  cbn [forallb] in Hp. apply andb_true_iff in Hp as [Hb Hp].
  cbn [put_blocks map]. destruct p as [|b' p'].
  - now apply sub_put_block.
  - apply sub_put_block; [exact Hb|].
    apply kept_by_cons; [discriminate | discriminate |]. now apply IH.
Qed.

Lemma clean_payload_text (p : CodingPayload) :
  forallb answer_block p = true ->
  clean_json_string (payload_text p) = payload_text (map soften_block p).
Proof.
  intros Hp. unfold clean_json_string, payload_text.
  change (py "themes") with (map soften (py "themes")) at 2.
  apply kept_by_cons; [discriminate | discriminate | | reflexivity].
  repeat kept_step.
  apply sub_put_blocks; [exact Hp|].
  repeat kept_step. reflexivity.
Qed.

(** *** From the answer to the table, for any payload *)

Lemma soften_answer_char (c : char) :
  answer_char c = true -> literal_char (soften c) = true.
Proof.
  unfold answer_char, soften. destruct (N.eqb c LF); [reflexivity|].
  now rewrite orb_false_l.
Qed.

Lemma soften_answer_str (x : str) :
  forallb answer_char x = true -> forallb literal_char (map soften x) = true.
Proof.
  rewrite !forallb_forall. intros H c Hc. apply in_map_iff in Hc as (c0 & <- & Hc0).
  apply soften_answer_char. now apply H.
Qed.

Lemma soften_answer_strs (l : list str) :
  forallb (forallb answer_char) l = true ->
  forallb (forallb literal_char) (map (map soften) l) = true.
Proof.
  rewrite !forallb_forall. intros H x Hx. apply in_map_iff in Hx as (x0 & <- & Hx0).
  apply soften_answer_str. now apply H.
Qed.

Lemma soften_answer_blocks (p : CodingPayload) :
  forallb answer_block p = true ->
  forallb literal_block (map soften_block p) = true.
Proof.
  rewrite !forallb_forall. intros H b Hb. apply in_map_iff in Hb as (b0 & <- & Hb0).
  specialize (H b0 Hb0). unfold answer_block, literal_block, block_chars in *.
  apply andb_true_iff in H as [H Hv]. apply andb_true_iff in H as [Ht Hc].
  cbn [soften_block theme codings verbatims].
  now rewrite soften_answer_str, !soften_answer_strs.
Qed.

Lemma extract_payload_text (pre post : str) (p : CodingPayload) :
  ~ In LBRACE pre -> ~ In RBRACE post ->
  extract_json (pre ++ payload_text p ++ post) = Ok (payload_text p).
Proof.
  intros Hpre Hpost. unfold extract_json. rewrite (payload_text_span p) at 1.
  cbn [app]. rewrite <- app_assoc. cbn [app].
  rewrite re_search_span by assumption.
  now rewrite <- payload_text_span.
Qed.

Lemma parse_payload_text (pre post : str) (p : CodingPayload) :
  ~ In LBRACE pre -> ~ In RBRACE post ->
  forallb answer_block p = true ->
  parse_response Json.loads (pre ++ payload_text p ++ post)
  = Ok (payload_json (map soften_block p)).
Proof.
  intros Hpre Hpost Hp. unfold parse_response.
  rewrite extract_payload_text by assumption. cbn [bind].
  rewrite clean_payload_text by exact Hp.
  apply loads_payload_text. now apply soften_answer_blocks.
Qed.

(** X16. An answer in the format the prompt asks for gives the table of its
    payload, whatever the payload: with words before that have no opening
    brace and words after that have no closing brace, [extract_json] returns
    exactly the text of the payload, [clean_json_string] turns the newlines
    inside its strings into spaces and changes nothing else, the decoder then
    accepts it, and the rows are those of every block in order, with a space
    where a string had a newline. *)
Theorem well_formed_answer_tabulated (pre post : str) (p : CodingPayload) :
  ~ In LBRACE pre -> ~ In RBRACE post ->
  forallb answer_block p = true ->
  extract_json (pre ++ payload_text p ++ post) = Ok (payload_text p)
  /\ clean_json_string (payload_text p) = payload_text (map soften_block p)
  /\ parse_response Json.loads (pre ++ payload_text p ++ post)
     = Ok (payload_json (map soften_block p))
  /\ (data <- parse_response Json.loads (pre ++ payload_text p ++ post) ;;
      build_rows data)
     = Ok (List.concat (map block_table (map soften_block p))).
Proof.
  intros Hpre Hpost Hp.
  split; [now apply extract_payload_text|].
  split; [now apply clean_payload_text|].
  rewrite parse_payload_text by assumption.
  split; [reflexivity|].
  cbn [bind]. rewrite build_rows_payload. now rewrite themes_loop_payload.
Qed.

Lemma well_formed_answer_tabulated_witness :
  (data <- parse_response Json.loads
             (py "Voici: "
                ++ payload_text [mk_block (py "T") [py "A"; py "B"]
                                   [[113; 10; 49]%N; py "q2"]]
                ++ py " Fin.") ;;
   build_rows data)
  = Ok [mk_row (JStr (py "T")) (JStr (py "A")) (JStr (py "q 1"));
        mk_row (JStr (py "T")) (JStr (py "B")) (JStr (py "q2"))].
Proof.
  apply (@well_formed_answer_tabulated (py "Voici: ")  (py " Fin.")
           [mk_block (py "T") [py "A"; py "B"] [[113; 10; 49]%N; py "q2"]]).
  - vm_compute. intuition discriminate.
  - vm_compute. intuition discriminate.
  - reflexivity.
Defined.

(** *** Runs on answers in the format of the prompt *)

Section WellFormedRuns.
Variable World : Type.
Variable read_docx_file_content : str -> World -> str * World.
Variable analyze_document : str -> World -> str * World.
Hypothesis always_well_formed :
  forall content w, well_formed (fst (analyze_document content w)).

Lemma well_formed_loop (items : list item) :
  forall cb w,
    (forall k t, dict_get cb k = Some t -> payload_table t) ->
    exists evs cb' w',
      for_items read_docx_file_content analyze_document Json.loads items cb w
      = (evs, Next cb' w')
      /\ drive_reads evs = map id items
      /\ (forall k t, dict_get cb' k = Some t -> payload_table t).
Proof.
  induction items as [|it items IH]; intros cb w Hcb.
  - exists [], cb, w. now split.
  - cbn [for_items]. unfold loop_body.
    destruct (read_docx_file_content (id it) w) as [content w1].
    destruct (py_not (strip content)).
    + destruct (IH cb w1 Hcb) as (evs & cb' & w' & -> & Hr & Hinv).
      exists (skipped it ++ evs), cb', w'. split; [reflexivity|].
      split; [|exact Hinv]. rewrite drive_reads_app, Hr. reflexivity.
    + pose proof (always_well_formed content w1) as Hwf.
      destruct (analyze_document content w1) as [analysis w2].
      destruct Hwf as (pre & p & post & Hpre & Hpost & Hp & E).
      cbn [fst] in E. subst analysis.
      rewrite parse_payload_text by assumption.
      rewrite build_rows_payload, themes_loop_payload. cbn [app].
      set (table := List.concat (map block_table (map soften_block p))).
      destruct (IH (dict_set cb (slice_to 31 (name it)) table) w2)
        as (evs & cb' & w' & -> & Hr & Hinv).
      { intros k t. destruct (str_eq_dec k (slice_to 31 (name it))) as [->|Hne].
        - rewrite dict_get_set_same. intros H. injection H as <-.
          exists (map soften_block p). split; [|reflexivity].
          now apply soften_answer_blocks.
        - rewrite dict_get_set_other by exact Hne. apply Hcb. }
      exists (seen it content ++ evs), cb', w'. split; [reflexivity|].
      split; [|exact Hinv]. rewrite drive_reads_app, Hr. reflexivity.
Qed.

End WellFormedRuns.

Lemma steady_well_formed (content : str) (w : nat) :
  well_formed (fst (steady_analyze content w)).
Proof.
  exists (py "Reasoning..." ++ [LF]),
         [mk_block (py "T") [py "A"] [py "quote one"]],
         ([LF] ++ py "Done.").
  split; [vm_compute; intuition discriminate|].
  split; [vm_compute; intuition discriminate|].
  split; reflexivity.
Qed.

